(** * rgb-obsidian-to-org: note identity and link resolution

    A shallow embedding of [src/main.py]: the [NoteConverter] and
    [VaultConverter] classes, the discovery loop of [main] and the link
    rewriting of [process_note], with the properties of the design
    document stated over them.

    Python values are modelled as follows.
    - [str] is [string]; the helpers of module [PyStr] follow the
      [str] methods the program calls ([split], [startswith], [in],
      [rfind]).
    - [pathlib.Path] is the tuple of its [parts] (a list of strings;
      an absolute path starts with the part ["/"]).
    - [vault_map], which the program iterates, is an insertion-ordered
      list of entries; [asset_map] and the metadata of a note are
      [gmap]s.
    - the file system is a [gmap] from paths to file contents, and the
      code that touches it runs in a small state-and-exception monad;
      rendering, whose pandoc cache compares modification times, runs
      on files that carry the time of their last write.
    - exceptions are the constructors of [exn]; the design document's
      [MissingTimestamp] is the [KeyError] or [AttributeError] of
      [org_path], its [AmbiguousStem] the [ValueError] of [from_stem]. *)

From Stdlib Require Import Ascii String.
From stdpp Require Import gmap strings list fin_maps pretty.

(** ** Strings *)

Module PyStr.

(** [s.split(sep)] for a one-character separator: never empty. *)
Fixpoint split (sep : ascii) (s : string) : list string :=
  match s with
  | "" => [""]
  | String c r =>
      if decide (c = sep) then "" :: split sep r
      else match split sep r with
           | w :: ws => String c w :: ws
           | [] => [String c ""]
           end
  end.

(** [sep.join(ws)]. *)
Fixpoint join (sep : string) (ws : list string) : string :=
  match ws with
  | [] => ""
  | [w] => w
  | w :: ws' => w +:+ sep +:+ join sep ws'
  end.

(** [s.startswith(p)]. *)
Fixpoint startswith (p s : string) : bool :=
  match p, s with
  | "", _ => true
  | String a p', String b s' => if decide (a = b) then startswith p' s' else false
  | String _ _, "" => false
  end.

(** [p in s]: substring test. *)
Fixpoint contains (p s : string) : bool :=
  startswith p s ||
  match s with
  | "" => false
  | String _ s' => contains p s'
  end.

(** [s.rfind(".")]: index of the last dot, [None] for Python's [-1]. *)
Fixpoint rfind_dot (s : string) : option nat :=
  match s with
  | "" => None
  | String c r =>
      match rfind_dot r with
      | Some i => Some (S i)
      | None => if decide (c = "."%char) then Some 0 else None
      end
  end.

(** [s[:n]] and [s[n:]]. *)
Fixpoint take (n : nat) (s : string) : string :=
  match n, s with
  | S n', String c r => String c (take n' r)
  | _, _ => ""
  end.

Fixpoint drop (n : nat) (s : string) : string :=
  match n, s with
  | S n', String _ r => drop n' r
  | _, _ => s
  end.

(** Character classes of the ASCII range. *)
Definition is_digit (c : ascii) : bool :=
  let n := nat_of_ascii c in ((48 <=? n) && (n <=? 57))%nat.
Definition is_upper (c : ascii) : bool :=
  let n := nat_of_ascii c in ((65 <=? n) && (n <=? 90))%nat.
Definition is_lower (c : ascii) : bool :=
  let n := nat_of_ascii c in ((97 <=? n) && (n <=? 122))%nat.
Definition is_alnum (c : ascii) : bool :=
  is_digit c || is_upper c || is_lower c.

(** [c.lower()] on ASCII. *)
Definition lower_char (c : ascii) : ascii :=
  if is_upper c then ascii_of_nat (nat_of_ascii c + 32) else c.

Fixpoint lower (s : string) : string :=
  match s with
  | "" => ""
  | String c r => String (lower_char c) (lower r)
  end.

Fixpoint forallb (p : ascii → bool) (s : string) : bool :=
  match s with
  | "" => true
  | String c r => p c && forallb p r
  end.

Fixpoint take_while (p : ascii → bool) (s : string) : string :=
  match s with
  | "" => ""
  | String c r => if p c then String c (take_while p r) else ""
  end.

Fixpoint drop_while (p : ascii → bool) (s : string) : string :=
  match s with
  | "" => ""
  | String c r => if p c then drop_while p r else s
  end.

End PyStr.

(** ** Paths

    A [pathlib.PurePosixPath] is determined by its [parts]. *)

Module PyPath.

Definition Path : Type := list string.

Definition is_root (part : string) : bool :=
  bool_decide (part = "/") || bool_decide (part = "//").

Definition is_absolute (p : Path) : bool :=
  match p with
  | r :: _ => is_root r
  | [] => false
  end.

(** The root that [Path(s)] parses off the front of [s]: exactly two
    leading slashes are kept as ["//"], any other number is ["/"]. *)
Definition parse_root (s : string) : list string :=
  match s with
  | String "/"%char (String "/"%char (String "/"%char _)) => ["/"]
  | String "/"%char (String "/"%char _) => ["//"]
  | String "/"%char _ => ["/"]
  | _ => []
  end.

(** [Path(s)]: empty and ["."] components are dropped. *)
Definition of_string (s : string) : Path :=
  parse_root s ++
  filter (λ w, w ≠ "" ∧ w ≠ ".") (PyStr.split "/"%char s).

(** [p / q]. *)
Definition joinpath (p q : Path) : Path :=
  if is_absolute q then q else p ++ q.

(** [p.name]. *)
Definition name (p : Path) : string :=
  match last p with
  | Some w => if is_root w then "" else w
  | None => ""
  end.

(** [p.suffix] and [p.stem]: the last dot splits the name, unless it
    is the first or the last character. *)
Definition suffix (p : Path) : string :=
  let n := name p in
  match PyStr.rfind_dot n with
  | Some i =>
      if bool_decide (0 < i)%nat && bool_decide (i < String.length n - 1)%nat
      then PyStr.drop i n else ""
  | None => ""
  end.

Definition stem (p : Path) : string :=
  let n := name p in
  match PyStr.rfind_dot n with
  | Some i =>
      if bool_decide (0 < i)%nat && bool_decide (i < String.length n - 1)%nat
      then PyStr.take i n else n
  | None => n
  end.

(** [p.parent]. *)
Definition parent (p : Path) : Path :=
  match p with
  | [] => []
  | [w] => if is_root w then p else []
  | _ => removelast p
  end.

(** [str(p)]. *)
Definition to_string (p : Path) : string :=
  match p with
  | [] => "."
  | r :: ws => if is_root r then r +:+ PyStr.join "/" ws
               else PyStr.join "/" p
  end.

(** [p.relative_to(base)], [None] where Python raises [ValueError]. *)
Fixpoint relative_to (p base : Path) : option Path :=
  match base, p with
  | [], _ => Some p
  | b :: base', w :: p' =>
      if decide (b = w) then relative_to p' base' else None
  | _ :: _, [] => None
  end.

End PyPath.

Import PyPath.

(** ** Insertion-ordered dictionaries

    [vault_map] is iterated ([for path in self.vault_map], [.values()]),
    so its model keeps Python's insertion order: a list of entries in
    which assigning to a key that is present replaces the value in
    place. [dict_wf] is the invariant that every [dict] satisfies. *)

Module PyDict.
Section dict.
Context {K V : Type} `{EqDecision K}.

Definition dict : Type := list (K * V).

Definition keys (d : dict) : list K := d.*1.
Definition values (d : dict) : list V := d.*2.

(** [d.get(k)]. *)
Fixpoint get (k : K) (d : dict) : option V :=
  match d with
  | [] => None
  | (k', v) :: d' => if decide (k = k') then Some v else get k d'
  end.

(** [d[k] = v]. *)
Fixpoint set (k : K) (v : V) (d : dict) : dict :=
  match d with
  | [] => [(k, v)]
  | (k', v') :: d' =>
      if decide (k = k') then (k, v) :: d' else (k', v') :: set k v d'
  end.

Definition dict_wf (d : dict) : Prop := NoDup (keys d).
End dict.
Global Arguments dict : clear implicits.
End PyDict.

Import PyDict.

(** ** Frontmatter values *)

(** [datetime.datetime]; the fields stay within the ranges the class
    enforces (year 1..9999, month 1..12, ...). *)
Record datetime := mk_datetime {
  year : nat; month : nat; day : nat;
  hour : nat; minute : nat; second : nat
}.

(** The scalars a YAML prologue yields. [YDate] is [datetime.date]. *)
Inductive yaml :=
| YNull
| YBool (b : bool)
| YInt (z : Z)
| YStr (s : string)
| YDate (y m d : nat)
| YDateTime (t : datetime).

(** Python truth value. *)
Definition truthy (v : yaml) : bool :=
  match v with
  | YNull => false
  | YBool b => b
  | YInt z => negb (z =? 0)%Z
  | YStr s => negb (bool_decide (s = ""))
  | YDate _ _ _ | YDateTime _ => true
  end.

Definition digit_char (n : nat) : ascii := ascii_of_nat (48 + n mod 10).

(** [n] printed on [w] decimal digits, zero padded: C's [%0wd] for
    [n < 10^w]. *)
Fixpoint zero_padded (w n : nat) : string :=
  match w with
  | 0 => ""
  | S w' => zero_padded w' (n / 10) +:+ String (digit_char n) ""
  end.

(** [n] in decimal without padding: C's [%d]. *)
Fixpoint decimal_fuel (fuel n : nat) : string :=
  match fuel with
  | 0 => ""
  | S fuel' =>
      if n <? 10 then String (digit_char n) ""
      else decimal_fuel fuel' (n / 10) +:+ String (digit_char n) ""
  end.

Definition decimal (n : nat) : string := decimal_fuel (S n) n.

(** [t.strftime("%Y%m%d%H%M%S")]. The conversion is the C library's:
    glibc prints [%Y] as the year in decimal without padding, so a year
    below 1000 takes fewer than four digits; the other fields are
    padded to two digits. *)
Definition strftime_compact (t : datetime) : string :=
  decimal (year t) +:+ zero_padded 2 (month t) +:+
  zero_padded 2 (day t) +:+ zero_padded 2 (hour t) +:+
  zero_padded 2 (minute t) +:+ zero_padded 2 (second t).

Definition midnight (y m d : nat) : datetime := mk_datetime y m d 0 0 0.

(** [str(v)], which is what an f-string field prints. *)
Definition py_str (v : yaml) : string :=
  match v with
  | YNull => "None"
  | YBool true => "True"
  | YBool false => "False"
  | YInt z => pretty z
  | YStr s => s
  | YDate y m d =>
      zero_padded 4 y +:+ "-" +:+ zero_padded 2 m +:+ "-" +:+ zero_padded 2 d
  | YDateTime t =>
      zero_padded 4 (year t) +:+ "-" +:+ zero_padded 2 (month t) +:+ "-" +:+
      zero_padded 2 (day t) +:+ " " +:+ zero_padded 2 (hour t) +:+ ":" +:+
      zero_padded 2 (minute t) +:+ ":" +:+ zero_padded 2 (second t)
  end.

(** [frontmatter.Post]. *)
Record Post := mk_Post {
  metadata : gmap string yaml;
  content : string
}.

(** ** Exceptions, the file system and the monad *)

Inductive exn :=
| KeyError (key : string)
| AttributeError (attr : string)
| ValueError (msg : string)
| IndexError
| FileNotFoundError (p : Path).

Inductive outcome (A : Type) :=
| Return (a : A)
| Raise (e : exn).
Global Arguments Return {A} a.
Global Arguments Raise {A} e.

Definition is_Return {A} (r : outcome A) : bool :=
  match r with Return _ => true | Raise _ => false end.

(** Files by path, as the program writes the path: directories are
    not recorded, and a relative path is not resolved against the
    working directory. *)
Abbreviation FS := (gmap Path string).

(** A computation reads and writes the file system and returns or
    raises; what it wrote before raising stays written. *)
Definition M (A : Type) : Type := FS → FS * outcome A.

Global Instance outcome_ret : MRet outcome := λ A a, Return a.
Global Instance outcome_bind : MBind outcome := λ A B k r,
  match r with
  | Return a => k a
  | Raise e => Raise e
  end.

Global Instance M_ret : MRet M := λ A a fs, (fs, Return a).
Global Instance M_bind : MBind M := λ A B k m fs,
  match m fs with
  | (fs', Return a) => k a fs'
  | (fs', Raise e) => (fs', Raise e)
  end.

(** An exception-only computation inside [M]. *)
Definition lift {A} (r : outcome A) : M A := λ fs, (fs, r).

Module FileSystem.
(** [p.is_file()]. *)
Definition is_file (p : Path) : M bool :=
  λ fs, (fs, Return (bool_decide (is_Some (fs !! p)))).

(** [p.read_text(encoding="utf-8")]. *)
Definition read_text (p : Path) : M string :=
  λ fs, match fs !! p with
        | Some c => (fs, Return c)
        | None => (fs, Raise (FileNotFoundError p))
        end.

(** [p.mkdir(parents=True, exist_ok=True)]: directories are implicit
    in [FS], so there is nothing to record. *)
Definition mkdir_parents (p : Path) : M unit := mret ().

(** [shutil.copy(src, dst)]. *)
Definition copy (src dst : Path) : M unit :=
  λ fs, match fs !! src with
        | Some c => (<[dst := c]> fs, Return ())
        | None => (fs, Raise (FileNotFoundError src))
        end.
End FileSystem.

(** ** Collaborators outside the repository *)

(** The words of a text: its maximal runs of ASCII letters and
    digits. *)
Definition starts_alnum (s : string) : bool :=
  match s with
  | String c _ => PyStr.is_alnum c
  | "" => false
  end.

Fixpoint alnum_words (s : string) : list string :=
  match s with
  | "" => []
  | String c r =>
      let rest := alnum_words r in
      if PyStr.is_alnum c then
        match rest with
        | w :: ws => if starts_alnum r then String c w :: ws
                     else String c "" :: rest
        | [] => [String c ""]
        end
      else rest
  end.

(** Modelled from the spec: [slugify(text, separator="_")] comes from
    the python-slugify package, which is not under src/. The design
    document describes the result as the normalized stem: "lowercase,
    word-separator-joined", "lowercase ASCII, non-alphanumeric runs
    collapsed to a single separator character". *)
Definition slugify (text : string) : string :=
  PyStr.join "_" (alnum_words (PyStr.lower text)).

(** [frontmatter.loads] parses the prologue of a note;
    [pypandoc_convert_text markdown] is
    [pypandoc.convert_text(markdown, "org", format=..., extra_args=...)]
    with the format and the arguments of [_generate_org_content]. *)
Class Collaborators := {
  frontmatter_loads : string → Post;
  pypandoc_convert_text : string → string
}.

Definition nl : string := String (ascii_of_nat 10) "".

Definition CONTENT_SUFFIXES : list string := [".md"].
Definition ASSET_SUFFIXES : list string := [".jpg"; ".png"].

(** ** [class NoteConverter] *)

(** The field [_org_content] is not in the record: the methods that
    read or set it, [org_content], [_generate_org_content] and [as_org],
    take its value as an argument and hand the new one back; they are
    in module [OrgCache] below, with the files they work on. *)
Module NoteConverter.

Record t := mk {
  input_dir : Path;
  output_dir : Path;
  source : Path;
  md_note : Post;
  slug : string
}.

Section methods.
Context `{Collaborators}.

(** The dataclass constructor followed by [__post_init__]. *)
Definition init (input_dir output_dir source : Path) : M t :=
  text ← FileSystem.read_text source;
  mret {| input_dir := input_dir; output_dir := output_dir;
          source := source;
          md_note := frontmatter_loads text;
          slug := slugify (stem source) |}.

Definition meta (self : t) : gmap string yaml := metadata (md_note self).

Definition org_id (self : t) : string := slug self.

(** [v.strftime("%Y%m%d%H%M%S")]: dates and datetimes have the
    method, the other values raise [AttributeError]. *)
Definition strftime (v : yaml) : outcome string :=
  match v with
  | YDate y m d => Return (strftime_compact (midnight y m d))
  | YDateTime t => Return (strftime_compact t)
  | _ => Raise (AttributeError "strftime")
  end.

Definition org_path (self : t) : outcome string :=
  match meta self !! "created" with
  | None => Raise (KeyError "created")
  | Some created =>
      timestamp ← strftime created;
      mret (timestamp +:+ "-" +:+ slug self +:+ ".org")
  end.

Definition title (self : t) : yaml :=
  match metadata (md_note self) !! "title" with
  | Some title => if truthy title then title else YStr (stem (source self))
  | None => YStr (stem (source self))
  end.

Definition get_org_meta (self : t) : outcome (list (string * yaml)) :=
  match relative_to (source self) (input_dir self) with
  | None => Raise (ValueError "source is not in the subpath of input_dir")
  | Some [] => Raise IndexError
  | Some (section :: _) =>
      Return [("title", title self);
              ("filetags", YStr (":" +:+ section +:+ ":"))]
  end.

Definition get_org_roam_link (self : t) (link_text : option string) : string :=
  let link_text :=
    match link_text with
    | None => py_str (title self)
    | Some text => text
    end in
  "[[id:" +:+ org_id self +:+ "][" +:+ link_text +:+ "]]".
End methods.
End NoteConverter.

(** ** [class VaultConverter] *)

Module VaultConverter.

Record t := mk {
  vault_map : dict Path NoteConverter.t;
  asset_map : gmap Path Path;
  output_dir : Path
}.

(** [requested_link.split("/")[-1]]. *)
Definition split_last (requested_link : string) : string :=
  default "" (last (PyStr.split "/"%char requested_link)).

(** [path] is a key of [vault_map] whose stem is [stem_]. *)
Definition stem_match (self : t) (stem_ : string) (path : Path) : Prop :=
  path ∈ keys (vault_map self) ∧ stem path = stem_.

Definition matches (self : t) (stem_ : string) : list Path :=
  filter (λ path, stem path = stem_) (keys (vault_map self)).

Definition from_stem (self : t) (stem_ : string) : outcome (option NoteConverter.t) :=
  let matches := matches self stem_ in
  match matches with
  | [] => Return None
  | path :: more =>
      if bool_decide (1 < length matches) then
        Raise (ValueError "Too many stem matches found")
      else
        match get path (vault_map self) with
        | Some note => Return (Some note)
        | None => Raise (KeyError (to_string path))
        end
  end.

Definition ensure_link (self : t) (requested_link : string)
    (link_text : option string) : M string :=
  let base := split_last requested_link in
  found ← lift (from_stem self base);
  match found with
  | Some note => mret (NoteConverter.get_org_roam_link note link_text)
  | None =>
      let link_path := of_string requested_link in
      match asset_map self !! link_path with
      | Some asset_path =>
          let output_path := joinpath (output_dir self) link_path in
          present ← FileSystem.is_file output_path;
          (if negb present then
             FileSystem.mkdir_parents (parent output_path);;
             FileSystem.copy asset_path output_path
           else mret ());;
          mret ("[[" +:+ to_string link_path +:+ "]]")
      | None =>
          match link_text with
          | Some text =>
              if negb (bool_decide (text = "")) then mret ("/" +:+ text +:+ "/")
              else mret ("/" +:+ requested_link +:+ "/")
          | None => mret ("/" +:+ requested_link +:+ "/")
          end
      end
  end.
End VaultConverter.

(** ** The link grammar of [process_note]

    [ORG_LINK] is, with the layout of the verbose pattern removed,
    [\[\[file:(?P<link>[^\]]+?)\](?:\[(?P<title>[^\]]+?)\])?\]]. *)

Module OrgLink.

(** [match.group()], [match.group("link")], [match.group("title")]. *)
Record Match := mk_Match {
  group0 : string;
  link : string;
  title : option string
}.

(** Characters up to the first ["]"], and what follows it. *)
Fixpoint until_bracket (s : string) : option (string * string) :=
  match s with
  | "" => None
  | String c r =>
      if decide (c = "]"%char) then Some ("", r)
      else '(w, rest) ← until_bracket r; Some (String c w, rest)
  end.

(** [[^\]]+?\]]: a group can only end at the first ["]"] and needs
    one character at least. *)
Definition group_bracket (s : string) : option (string * string) :=
  '(w, rest) ← until_bracket s;
  if bool_decide (w = "") then None else Some (w, rest).

(** [org_link.match] at the start of [s]. The optional title group is
    tried first; after the link's ["]"] the next character decides. *)
Definition match_at (s : string) : option Match :=
  if PyStr.startswith "[[file:" s then
    '(link, rest) ← group_bracket (PyStr.drop 7 s);
    match rest with
    | String "["%char rest =>
        match group_bracket rest with
        | Some (title, String "]"%char _) =>
            Some {| group0 := "[[file:" +:+ link +:+ "][" +:+ title +:+ "]]";
                    link := link; title := Some title |}
        | _ => None
        end
    | String "]"%char _ =>
        Some {| group0 := "[[file:" +:+ link +:+ "]]";
                link := link; title := None |}
    | _ => None
    end
  else None.

(** [org_link.sub(repl, s)]: one pass from the left; [skip] counts
    the characters of the last match that are still to be passed. *)
Fixpoint sub_from (repl : Match → M string) (skip : nat) (s : string) : M string :=
  match s with
  | "" => mret ""
  | String c r =>
      match skip with
      | S skip' => sub_from repl skip' r
      | 0 =>
          match match_at s with
          | Some m =>
              new ← repl m;
              tail ← sub_from repl (String.length (group0 m) - 1) r;
              mret (new +:+ tail)
          | None =>
              tail ← sub_from repl 0 r;
              mret (String c tail)
          end
      end
  end.

Definition sub (repl : Match → M string) (s : string) : M string :=
  sub_from repl 0 s.
End OrgLink.

(** ** The pandoc cache of [_generate_org_content]

    A file carries its modification time; [now] is the time that a
    write stamps on the file it writes; the value of the field
    [_org_content] is passed in, and [org_content] hands its new value
    back. Directories are implicit, as in [FS]. *)

Module OrgCache.

Abbreviation TFS := (gmap Path (string * nat)).

Definition TM (A : Type) : Type := TFS → TFS * outcome A.

Global Instance TM_ret : MRet TM := λ A a fs, (fs, Return a).
Global Instance TM_bind : MBind TM := λ A B k m fs,
  match m fs with
  | (fs', Return a) => k a fs'
  | (fs', Raise e) => (fs', Raise e)
  end.

Definition lift_outcome {A} (r : outcome A) : TM A := λ fs, (fs, r).

(** [p.is_file()]. *)
Definition is_file (p : Path) : TM bool :=
  λ fs, (fs, Return (bool_decide (is_Some (fs !! p)))).

(** [p.stat().st_mtime]. *)
Definition st_mtime (p : Path) : TM nat :=
  λ fs, match fs !! p with
        | Some file => (fs, Return file.2)
        | None => (fs, Raise (FileNotFoundError p))
        end.

(** [p.read_text(encoding="utf-8")]. *)
Definition read_text (p : Path) : TM string :=
  λ fs, match fs !! p with
        | Some file => (fs, Return file.1)
        | None => (fs, Raise (FileNotFoundError p))
        end.

(** [p.write_text(c, encoding="utf-8")] at time [now]. *)
Definition write_text (now : nat) (p : Path) (c : string) : TM unit :=
  λ fs, (<[p := (c, now)]> fs, Return ()).

Section cache.
(** [pypandoc.convert_text(content, "org", ...)]. *)
Variable convert_text : string → string.

(** [Path(f"cache/pandoc/") / self.org_path]. *)
Definition cache_file (name : string) : Path :=
  joinpath (of_string "cache/pandoc/") (of_string name).

(** [cache_file.is_file() and
    cache_file.stat().st_mtime > self.source.stat().st_mtime]. *)
Definition cache_is_newer (cache_file : Path) (self : NoteConverter.t) : TM bool :=
  cached ← is_file cache_file;
  if (cached : bool) then
    cache_mtime ← st_mtime cache_file;
    source_mtime ← st_mtime (NoteConverter.source self);
    mret (bool_decide (source_mtime < cache_mtime))
  else mret false.

Definition _generate_org_content (now : nat) (self : NoteConverter.t)
    (_org_content : string) : TM string :=
  name ← lift_outcome (NoteConverter.org_path self);
  let cache_file := cache_file name in
  newer ← cache_is_newer cache_file self;
  if (newer : bool) then read_text cache_file
  else
    let transformed_md := convert_text (content (NoteConverter.md_note self)) in
    write_text now cache_file _org_content;;
    mret transformed_md.

(** [org_content]: the text, and the value the field has afterwards. *)
Definition org_content (now : nat) (self : NoteConverter.t)
    (_org_content : string) : TM (string * string) :=
  if bool_decide (_org_content = "") then
    text ← _generate_org_content now self _org_content;
    mret (text, text)
  else mret (_org_content, _org_content).
End cache.
End OrgCache.

(** ** Plain files and timed files

    The build phase and link resolution work on the files alone. Run at
    time [now] on timed files, such a step sees their contents; a file
    that it creates or changes is stamped [now], and the other files
    keep their times. *)

Definition contents (fs : OrgCache.TFS) : FS := fst <$> fs.

Definition stamp (now : nat) (old : OrgCache.TFS) (new : FS) : OrgCache.TFS :=
  map_imap
    (λ path c,
       Some (c, match old !! path with
                | Some file => if decide (file.1 = c) then file.2 else now
                | None => now
                end))
    new.

Definition on_contents {A} (now : nat) (m : M A) : OrgCache.TM A :=
  λ fs, let '(fs', r) := m (contents fs) in (stamp now fs fs', r).

(** ** [as_org] and [process_note] *)

Section process.
Context `{Collaborators}.

(** [NoteConverter.as_org]: the text, and the value that
    [_org_content] has afterwards. *)
Definition as_org (now : nat) (self : NoteConverter.t) (_org_content : string)
    : OrgCache.TM (string * string) :=
  generated ← OrgCache.org_content pypandoc_convert_text now self _org_content;
  org_meta ← OrgCache.lift_outcome (NoteConverter.get_org_meta self);
  let org_content := generated.1 in
  let frontmatter :=
    PyStr.join nl ((λ kv, "#+" +:+ kv.1 +:+ ": " +:+ py_str kv.2) <$> org_meta) in
  mret (":PROPERTIES:" +:+ nl +:+ ":ID: " +:+ NoteConverter.org_id self +:+ nl +:+
        ":END:" +:+ nl +:+ frontmatter +:+ nl +:+ nl +:+ org_content,
        generated.2).

Definition find_link (vault : VaultConverter.t) (m : OrgLink.Match) : M string :=
  let fallback := OrgLink.group0 m in
  let link_match := OrgLink.link m in
  let title := OrgLink.title m in
  link ← VaultConverter.ensure_link vault link_match title;
  if negb (bool_decide (link = "")) then mret link
  else mret fallback.

(** [process_note] at time [now]. The converter reaches the worker as
    [__post_init__] left it, with an empty [_org_content]. *)
Definition process_note (now : nat) (args : NoteConverter.t * VaultConverter.t)
    : OrgCache.TM unit :=
  let '(converter, vault) := args in
  name ← OrgCache.lift_outcome (NoteConverter.org_path converter);
  let org_path := joinpath (VaultConverter.output_dir vault) (of_string name) in
  generated ← as_org now converter "";
  org_content ← on_contents now (OrgLink.sub (find_link vault) generated.1);
  OrgCache.write_text now org_path org_content.
End process.

(** ** [multiprocessing.Pool.map]

    The iterable is cut into chunks; a worker runs a chunk with
    [mapstar], where the first exception ends the chunk; the pool waits
    for every chunk and then returns, or raises the first exception
    that reached it. A schedule is the order in which the chunks are
    run. *)

Module Pool.
Section pool.
(** [St] is the state that the calls of [func] share: the files. *)
Context {St A B : Type}.

Definition chunksize (processes len : nat) : nat :=
  let chunksize := len / (processes * 4) in
  let extra := len mod (processes * 4) in
  if bool_decide (extra ≠ 0) then chunksize + 1 else chunksize.

(** [Pool._get_tasks]: slices of [size] items until none is left. *)
Fixpoint get_tasks_fuel (fuel size : nat) (it : list A) : list (list A) :=
  match fuel with
  | 0 => []
  | S fuel' =>
      match take size it with
      | [] => []
      | x => x :: get_tasks_fuel fuel' size (drop size it)
      end
  end.

Definition get_tasks (size : nat) (it : list A) : list (list A) :=
  get_tasks_fuel (length it) size it.

(** [mapstar]: [list(map(func, chunk))]. *)
Fixpoint mapstar (func : A → St → St * outcome B) (chunk : list A) (st : St)
    : St * outcome (list B) :=
  match chunk with
  | [] => (st, Return [])
  | x :: chunk' =>
      match func x st with
      | (st1, Return y) =>
          match mapstar func chunk' st1 with
          | (st2, Return ys) => (st2, Return (y :: ys))
          | (st2, Raise e) => (st2, Raise e)
          end
      | (st1, Raise e) => (st1, Raise e)
      end
  end.

(** The workers and the result handler: every chunk is run, and
    only the first exception is stored. *)
Fixpoint handle_chunks (func : A → St → St * outcome B) (sched : list (list A))
    (failure : option exn) (st : St) : St * option exn :=
  match sched with
  | [] => (st, failure)
  | chunk :: sched' =>
      match mapstar func chunk st with
      | (st', Return _) => handle_chunks func sched' failure st'
      | (st', Raise e) =>
          handle_chunks func sched' (Some (default e failure)) st'
      end
  end.

Definition run (func : A → St → St * outcome B) (sched : list (list A)) (st : St)
    : St * outcome unit :=
  match handle_chunks func sched None st with
  | (st', None) => (st', Return ())
  | (st', Some e) => (st', Raise e)
  end.

(** [pool.map(func, iterable)] from [st] may end in [st'] with [r]. *)
Definition map (processes : nat) (func : A → St → St * outcome B)
    (iterable : list A) (st st' : St) (r : outcome unit) : Prop :=
  ∃ sched,
    sched ≡ₚ get_tasks (chunksize processes (length iterable)) iterable ∧
    run func sched st = (st', r).
End pool.
End Pool.

(** ** [main] *)

Section main.
Context `{Collaborators}.

(** One turn of the discovery loop over [input_dir.glob("**/*.*")]. *)
Definition discover_path (input_dir output_dir : Path)
    (maps : gmap Path Path * dict Path NoteConverter.t) (path : Path)
    : M (gmap Path Path * dict Path NoteConverter.t) :=
  let '(asset_map, vault_map) := maps in
  match relative_to path input_dir with
  | None => lift (Raise (ValueError "path is not in the subpath of input_dir"))
  | Some vault_path =>
      if bool_decide (suffix path ∈ ASSET_SUFFIXES) then
        mret (<[vault_path := path]> asset_map, vault_map)
      else if bool_decide (suffix path ∈ CONTENT_SUFFIXES) then
        if PyStr.startswith "_" (stem (parent path)) then mret maps
        else if PyStr.startswith "_" (stem path) then mret maps
        else if PyStr.contains "/config/" (to_string path) then mret maps
        else
          note ← NoteConverter.init input_dir output_dir path;
          mret (asset_map, set vault_path note vault_map)
      else mret maps
  end.

Fixpoint discover (input_dir output_dir : Path) (paths : list Path)
    (maps : gmap Path Path * dict Path NoteConverter.t)
    : M (gmap Path Path * dict Path NoteConverter.t) :=
  match paths with
  | [] => mret maps
  | path :: paths' =>
      maps' ← discover_path input_dir output_dir maps path;
      discover input_dir output_dir paths' maps'
  end.

(** [main] from the discovery loop to the construction of the vault:
    [glob] is what [input_dir.glob("**/*.*")] yields. *)
Definition load_vault (input_dir output_dir : Path) (glob : list Path)
    : M VaultConverter.t :=
  maps ← discover input_dir output_dir glob (∅, []);
  mret (VaultConverter.mk maps.2 maps.1 output_dir).

(** [main]: a run at time [now] with [cpu_count] workers. [listing] is
    [None] when [input_dir] does not exist, and the paths that the
    enumeration yields when it does, be it an empty directory. *)
Definition main (now cpu_count : nat) (input_dir output_dir : Path)
    (listing : option (list Path)) (fs fs' : OrgCache.TFS) (r : outcome unit)
    : Prop :=
  match listing with
  | None => fs' = fs ∧ r = Raise (ValueError "Input dir does not exist")
  | Some glob =>
      match on_contents now (load_vault input_dir output_dir glob) fs with
      | (fs1, Raise e) => fs' = fs1 ∧ r = Raise e
      | (fs1, Return vault) =>
          if bool_decide (cpu_count < 1) then
            fs' = fs1 ∧
            r = Raise (ValueError "Number of processes must be at least 1")
          else
            Pool.map cpu_count (process_note now)
              ((λ converter, (converter, vault)) <$>
                 values (VaultConverter.vault_map vault))
              fs1 fs' r
      end
  end.
End main.

(** ** Vocabulary of the properties *)

(** A value that has [strftime]: the parseable creation timestamps. *)
Definition is_timestamp (v : yaml) : bool :=
  match v with
  | YDate _ _ _ | YDateTime _ => true
  | _ => false
  end.

(** The character class [[a-z0-9_]]. *)
Definition is_identifier_char (c : ascii) : bool :=
  PyStr.is_lower c || PyStr.is_digit c || bool_decide (c = "_"%char).

(** The pattern [^\d{14}-[a-z0-9_]+\.org$] on ASCII text: the fourteen
    digits, the hyphen, the longest run of identifier characters, which
    cannot hold the dot, and the extension; [$] also matches before a
    final newline. *)
Definition output_name_matches (name : string) : bool :=
  let timestamp := PyStr.take 14 name in
  bool_decide (String.length timestamp = 14) &&
  PyStr.forallb PyStr.is_digit timestamp &&
  match PyStr.drop 14 name with
  | String "-"%char rest =>
      negb (bool_decide (PyStr.take_while is_identifier_char rest = "")) &&
      (bool_decide (PyStr.drop_while is_identifier_char rest = ".org") ||
       bool_decide (PyStr.drop_while is_identifier_char rest = ".org" +:+ nl))
  | _ => false
  end.

(** The three exclusion tests of the discovery loop. *)
Definition excluded (path : Path) : bool :=
  PyStr.startswith "_" (name (parent path)) ||
  PyStr.startswith "_" (stem path) ||
  PyStr.contains "/config/" (to_string path).

(** What the discovery loop maintains: a note sits under its path
    relative to the input directory and passed the exclusion tests; an
    asset sits under its relative path and has an asset suffix. *)
Definition indexed_ok (input_dir : Path)
    (maps : gmap Path Path * dict Path NoteConverter.t) : Prop :=
  (∀ vault_path note,
      (vault_path, note) ∈ maps.2 →
      excluded (NoteConverter.source note) = false ∧
      relative_to (NoteConverter.source note) input_dir = Some vault_path) ∧
  (∀ vault_path asset_path,
      maps.1 !! vault_path = Some asset_path →
      suffix asset_path ∈ ASSET_SUFFIXES ∧
      relative_to asset_path input_dir = Some vault_path).

(** The output file of the note of [task] is in [fs]. *)
Definition written (fs : OrgCache.TFS) (task : NoteConverter.t * VaultConverter.t)
    : Prop :=
  ∃ name,
    NoteConverter.org_path task.1 = Return name ∧
    is_Some (fs !! joinpath (VaultConverter.output_dir task.2) (of_string name)).

(** The tasks that [main] hands to the pool. *)
Definition pool_tasks (vault : VaultConverter.t)
    : list (NoteConverter.t * VaultConverter.t) :=
  (λ converter, (converter, vault)) <$> values (VaultConverter.vault_map vault).

(** The place of the copy of an indexed asset. *)
Definition asset_copy (vault : VaultConverter.t) (path : Path) : Prop :=
  ∃ link_path asset_path,
    VaultConverter.asset_map vault !! link_path = Some asset_path ∧
    path = joinpath (VaultConverter.output_dir vault) link_path.

(** The files that rendering the note of [task] touches before it
    writes the note itself: the pandoc cache file of the note, and the
    copies of indexed assets. *)
Definition render_scratch (task : NoteConverter.t * VaultConverter.t)
    (path : Path) : Prop :=
  (∃ name,
      NoteConverter.org_path task.1 = Return name ∧
      path = OrgCache.cache_file name) ∨
  asset_copy task.2 path.

(** The lines that [as_org] puts before the body. *)
Definition org_header (self : NoteConverter.t) (org_meta : list (string * yaml))
    : string :=
  ":PROPERTIES:" +:+ nl +:+ ":ID: " +:+ NoteConverter.org_id self +:+ nl +:+
  ":END:" +:+ nl +:+
  PyStr.join nl ((λ kv, "#+" +:+ kv.1 +:+ ": " +:+ py_str kv.2) <$> org_meta) +:+
  nl +:+ nl.

(** The years that are written with four digits. *)
Definition four_digit_year (t : datetime) : bool :=
  (1000 <=? year t) && (year t <=? 9999).

(** The timestamp of a value that has [strftime]. *)
Definition timestamp_of (v : yaml) : option datetime :=
  match v with
  | YDate y m d => Some (midnight y m d)
  | YDateTime t => Some t
  | _ => None
  end.

(** The note with the [title] key taken out of its prologue. *)
Definition without_title (note : NoteConverter.t) : NoteConverter.t :=
  {| NoteConverter.input_dir := NoteConverter.input_dir note;
     NoteConverter.output_dir := NoteConverter.output_dir note;
     NoteConverter.source := NoteConverter.source note;
     NoteConverter.md_note :=
       mk_Post (delete "title" (metadata (NoteConverter.md_note note)))
               (content (NoteConverter.md_note note));
     NoteConverter.slug := NoteConverter.slug note |}.

(** ** A sample vault *)

Module Sample.
(** A stand-in prologue parser: a text that starts with [created]
    carries a creation date. *)
Definition collaborators : Collaborators :=
  {| frontmatter_loads := λ text,
       mk_Post (if PyStr.startswith "created" text
                then {[ "created" := YDate 2024 1 5 ]} else ∅) text;
     pypandoc_convert_text := λ markdown, markdown |}.

Definition vault_dir : Path := ["/"; "vault"].
Definition out_dir : Path := ["/"; "org"].

Definition note (rel : Path) (md : gmap string yaml) (body : string)
    : NoteConverter.t :=
  NoteConverter.mk vault_dir out_dir (vault_dir ++ rel) (mk_Post md body)
    (slugify (stem rel)).

Definition created : yaml := YDateTime (mk_datetime 2024 1 5 13 7 0).

Definition foo : NoteConverter.t :=
  note ["notes"; "foo.md"]
    {[ "created" := created; "title" := YStr "Foo Title" ]}
    "See [[file:notes/bar][Bar]].".
Definition bar : NoteConverter.t :=
  note ["notes"; "bar.md"] {[ "created" := created ]}
    "Back to [[file:notes/foo]], [[file:images/pic.png]] and [[file:nowhere][Text]].".
Definition upper_foo : NoteConverter.t :=
  note ["archive"; "Foo.md"] {[ "created" := created ]} "Old.".
Definition untitled : NoteConverter.t :=
  note ["notes"; "untitled.md"] {[ "created" := created; "title" := YStr "" ]} "".
Definition undated : NoteConverter.t :=
  note ["notes"; "undated.md"] ∅ "No prologue.".
Definition symbols : NoteConverter.t :=
  note ["notes"; "!!!.md"] {[ "created" := created ]} "".

Definition pic : Path := ["images"; "pic.png"].

Definition vault : VaultConverter.t :=
  VaultConverter.mk
    [(["notes"; "foo.md"], foo); (["notes"; "bar.md"], bar)]
    {[ pic := vault_dir ++ pic ]} out_dir.

(** Two notes whose stems differ by case only. *)
Definition vault_case : VaultConverter.t :=
  VaultConverter.mk
    [(["archive"; "Foo.md"], upper_foo); (["notes"; "foo.md"], foo)]
    ∅ out_dir.

Definition fs : FS := {[ vault_dir ++ pic := "PNG" ]}.

(** An input tree with a draft directory, a meta file, a
    configuration directory and a picture kept in a marked directory. *)
Definition tree : FS :=
  {[ vault_dir ++ ["notes"; "foo.md"] := "created: 2024-01-05";
     vault_dir ++ ["_drafts"; "idea.md"] := "created: 2024-01-05";
     vault_dir ++ ["notes"; "_index.md"] := "created: 2024-01-05";
     vault_dir ++ ["config"; "emacs.md"] := "created: 2024-01-05";
     vault_dir ++ ["_private"; "pic.png"] := "PNG" ]}.

Definition glob : list Path :=
  [ vault_dir ++ ["notes"; "foo.md"];
    vault_dir ++ ["_drafts"; "idea.md"];
    vault_dir ++ ["notes"; "_index.md"];
    vault_dir ++ ["config"; "emacs.md"];
    vault_dir ++ ["_private"; "pic.png"] ].

(** The maps that discovery builds from [glob]. *)
Definition discovered : gmap Path Path * dict Path NoteConverter.t :=
  match (discover (H:=collaborators) vault_dir out_dir glob (∅, []) tree).2 with
  | Return maps => maps
  | Raise _ => (∅, [])
  end.

(** A vault of five notes, the first one without a creation date. *)
Definition tree5 : FS :=
  {[ vault_dir ++ ["notes"; "a.md"] := "No prologue.";
     vault_dir ++ ["notes"; "b.md"] := "created: see [[file:notes/c][C]].";
     vault_dir ++ ["notes"; "c.md"] :=
       "created: see [[file:b]], [[file:images/pic.png]] and [[file:nowhere][Text]].";
     vault_dir ++ ["notes"; "d.md"] := "created: D";
     vault_dir ++ ["notes"; "e.md"] := "created: E";
     vault_dir ++ pic := "PNG" ]}.

Definition glob5 : list Path :=
  [ vault_dir ++ ["notes"; "a.md"]; vault_dir ++ ["notes"; "b.md"];
    vault_dir ++ ["notes"; "c.md"]; vault_dir ++ ["notes"; "d.md"];
    vault_dir ++ ["notes"; "e.md"]; vault_dir ++ pic ].

Definition vault5 : VaultConverter.t :=
  match (load_vault (H:=collaborators) vault_dir out_dir glob5 tree5).2 with
  | Return vault => vault
  | Raise _ => VaultConverter.mk [] ∅ out_dir
  end.

Definition note5 (file : string) : NoteConverter.t :=
  NoteConverter.mk vault_dir out_dir (vault_dir ++ ["notes"; file])
    (frontmatter_loads (Collaborators:=collaborators)
       (default "" (tree5 !! (vault_dir ++ ["notes"; file]))))
    (slugify (stem ["notes"; file])).

(** The tree with every file last written at time 0. *)
Definition world5 : OrgCache.TFS := (λ text, (text, 0)) <$> tree5.

(** The run, at time 1, of the pool with one worker that takes the
    chunks in the order of the task list. *)
Definition run5 : OrgCache.TFS * outcome unit :=
  Pool.run (process_note (H:=collaborators) 1)
    (Pool.get_tasks (Pool.chunksize 1 5) (pool_tasks vault5)) world5.
End Sample.

(** ** Further samples *)

Module Sample2.
(** Two notes with the same stem in different directories. *)
Definition vault_twins : VaultConverter.t :=
  VaultConverter.mk
    [(["notes"; "foo.md"], Sample.foo);
     (["archive"; "foo.md"],
      Sample.note ["archive"; "foo.md"] {[ "created" := Sample.created ]} "Old.")]
    ∅ Sample.out_dir.

(** The cache directory is empty, the source of the note was written at
    time 3. *)
Definition cache_fs : OrgCache.TFS :=
  {[ Sample.vault_dir ++ ["notes"; "foo.md"] := ("See [[notes/bar|Bar]].", 3) ]}.

Definition convert_text (markdown : string) : string := "org:" +:+ markdown.

End Sample2.

(** ** Vocabulary of the further properties *)

(** What discovery establishes of every entry: a note is read from the
    file its key names below the input directory, that file has a
    content suffix and no asset suffix, and the identifier is the
    normalized stem; an asset is the file its key names and has an asset
    suffix. *)
Definition discovered_ok (input_dir : Path)
    (maps : gmap Path Path * dict Path NoteConverter.t) : Prop :=
  dict_wf maps.2 ∧
  (∀ vault_path note,
      get vault_path maps.2 = Some note →
      NoteConverter.source note = input_dir ++ vault_path ∧
      NoteConverter.input_dir note = input_dir ∧
      suffix (NoteConverter.source note) ∈ CONTENT_SUFFIXES ∧
      NoteConverter.slug note = slugify (stem (NoteConverter.source note))) ∧
  (∀ vault_path asset_path,
      maps.1 !! vault_path = Some asset_path →
      asset_path = input_dir ++ vault_path ∧
      suffix asset_path ∈ ASSET_SUFFIXES).

(** The index holds, under [vault_path], the note that [__post_init__]
    builds for [path] from its text. *)
Definition has_note `{Collaborators}
    (maps : gmap Path Path * dict Path NoteConverter.t)
    (vault_path path : Path) (text : string) : Prop :=
  ∃ note,
    get vault_path maps.2 = Some note ∧
    NoteConverter.source note = path ∧
    NoteConverter.md_note note = frontmatter_loads text ∧
    NoteConverter.slug note = slugify (stem path).

(** The keys of the asset map are relative paths. *)
Definition relative_assets (vault : VaultConverter.t) : Prop :=
  ∀ link_path asset_path,
    VaultConverter.asset_map vault !! link_path = Some asset_path →
    is_absolute link_path = false.

(** * Properties *)

(** ** Strings and identifiers *)

Lemma append_cons c s t : String c s +:+ t = String c (s +:+ t).
Proof. reflexivity. Qed.

Lemma append_empty_r s : s +:+ "" = s.
Proof. induction s as [|c s IH]; [done|by rewrite append_cons, IH]. Qed.

Lemma lower_char_fixed c : PyStr.lower_char (PyStr.lower_char c) = PyStr.lower_char c.
Proof. destruct c as [[] [] [] [] [] [] [] []]; vm_compute; reflexivity. Qed.

Lemma forallb_lower s :
  PyStr.forallb (λ c, bool_decide (PyStr.lower_char c = c)) (PyStr.lower s) = true.
Proof.
  induction s as [|c s IH]; simpl; [done|].
  rewrite IH, andb_true_r. apply bool_decide_eq_true, lower_char_fixed.
Qed.

Lemma lower_fixed s :
  PyStr.forallb (λ c, bool_decide (PyStr.lower_char c = c)) s = true →
  PyStr.lower s = s.
Proof.
  induction s as [|c s IH]; simpl; [done|].
  intros [Hc Hs]%andb_true_iff. apply bool_decide_eq_true in Hc.
  by rewrite Hc, IH.
Qed.

Lemma forallb_app p s t :
  PyStr.forallb p (s +:+ t) = PyStr.forallb p s && PyStr.forallb p t.
Proof.
  induction s as [|c s IH]; [done|].
  rewrite append_cons. simpl. by rewrite IH, andb_assoc.
Qed.

(** Words are not empty and made of letters and digits; a property of
    every character of the text holds of the characters of its words. *)
Lemma alnum_words_spec p s :
  PyStr.forallb p s = true →
  Forall (λ w, w ≠ "" ∧ PyStr.forallb PyStr.is_alnum w = true ∧
               PyStr.forallb p w = true) (alnum_words s).
Proof.
  induction s as [|c s IH]; simpl; [constructor|].
  intros [Hc Hs]%andb_true_iff. specialize (IH Hs).
  destruct (PyStr.is_alnum c) eqn:Hal; [|done].
  destruct (alnum_words s) as [|w ws] eqn:Hw.
  - repeat constructor; simpl; [done|by rewrite Hal|by rewrite Hc].
  - inversion IH as [|? ? (Hne & Hw1 & Hw2) Hrest]; subst.
    destruct (starts_alnum s).
    + constructor; [|done]. simpl. by rewrite Hal, Hc, Hw1, Hw2.
    + constructor; [|done]. simpl. by rewrite Hal, Hc.
Qed.

Lemma alnum_words_cons c r :
  alnum_words (String c r) =
  if PyStr.is_alnum c then
    match alnum_words r with
    | w :: ws => if starts_alnum r then String c w :: ws
                 else String c "" :: alnum_words r
    | [] => [String c ""]
    end
  else alnum_words r.
Proof. reflexivity. Qed.

Lemma alnum_words_app w t :
  w ≠ "" → PyStr.forallb PyStr.is_alnum w = true → starts_alnum t = false →
  alnum_words (w +:+ t) = w :: alnum_words t.
Proof.
  induction w as [|c w IH]; [done|]. intros _ [Hc Hw]%andb_true_iff Ht.
  change (String c w +:+ t) with (String c (w +:+ t)).
  rewrite alnum_words_cons, Hc.
  destruct w as [|c' w'].
  - change ("" +:+ t) with t. rewrite Ht. by destruct (alnum_words t).
  - rewrite IH by done.
    simpl in Hw. apply andb_true_iff in Hw as [Hc' _].
    change (String c' w' +:+ t) with (String c' (w' +:+ t)).
    unfold starts_alnum. by rewrite Hc'.
Qed.

Lemma alnum_words_join ws :
  Forall (λ w, w ≠ "" ∧ PyStr.forallb PyStr.is_alnum w = true) ws →
  alnum_words (PyStr.join "_" ws) = ws.
Proof.
  induction 1 as [|w ws [Hne Hw] Hws IH]; [done|].
  destruct ws as [|w' ws'].
  - simpl. rewrite <- (append_empty_r w) at 1.  
    by rewrite alnum_words_app.
  - change (PyStr.join "_" (w :: w' :: ws')) with (w +:+ "_" +:+ PyStr.join "_" (w' :: ws')).
    rewrite alnum_words_app by done.
    f_equal. exact IH.
Qed.

(** C8. Normalizing an identifier twice gives what normalizing it once
    gives: [slugify] is idempotent on every string. *)
Theorem slugify_idempotent (text : string) :
  slugify (slugify text) = slugify text.
Proof.
  unfold slugify at 2 3.
  pose proof (alnum_words_spec _ _ (forallb_lower text)) as Hws.
  set (ws := alnum_words (PyStr.lower text)) in *.
  unfold slugify. rewrite lower_fixed.
  - rewrite alnum_words_join; [done|].
    eapply Forall_impl; [exact Hws|]. by intros w (? & ? & _).
  - clear -Hws. induction Hws as [|w ws (_ & _ & Hw) Hws IH]; [done|].
    destruct ws as [|w' ws']; [done|].
    change (PyStr.join "_" (w :: w' :: ws')) with (w +:+ "_" +:+ PyStr.join "_" (w' :: ws')).
    rewrite !forallb_app, Hw, IH. done.
Qed.

(** ** Dictionaries *)

Section dict_facts.
Context {K V : Type} `{EqDecision K}.
Implicit Types (d : dict K V) (k : K) (v : V).

Lemma get_Some_elem_of d k v : get k d = Some v → (k, v) ∈ d.
Proof.
  induction d as [|[k' v'] d IH]; simpl; [done|].
  case_decide as Hk; [intros [= ->]; subst; left|right; auto].
Qed.

Lemma get_is_Some d k : is_Some (get k d) ↔ k ∈ keys d.
Proof.
  unfold keys. induction d as [|[k' v'] d IH]; simpl.
  - split; [by intros [? ?]|by intros ?%elem_of_nil].
  - rewrite elem_of_cons. case_decide as Hk; simpl.
    + split; [by left|by eauto].
    + rewrite IH. split; [by right|by intros [?|?]].
Qed.

Lemma elem_of_get d k v : dict_wf d → (k, v) ∈ d → get k d = Some v.
Proof.
  unfold dict_wf, keys. induction d as [|[k' v'] d IH]; simpl.
  - by intros _ ?%elem_of_nil.
  - intros [Hk' Hd]%NoDup_cons [[= -> ->]|Hin]%elem_of_cons.
    + by rewrite decide_True.
    + rewrite decide_False; [by apply IH|].
      intros ->. apply Hk'. apply list_elem_of_fmap. by exists (k', v).
Qed.

Lemma set_keys d k v :
  keys (set k v d) = if decide (k ∈ keys d) then keys d else keys d ++ [k].
Proof.
  unfold keys. induction d as [|[k' v'] d IH]; [done|].
  cbn [set]. destruct (decide (k = k')) as [->|Hne].
  - rewrite decide_True; [done|]. rewrite fmap_cons. by left.
  - rewrite !fmap_cons, IH. cbn [fst]. destruct (decide (k ∈ d.*1)) as [Hin|Hin].
    + rewrite decide_True; [done|]. by right.
    + rewrite decide_False; [done|]. by intros [?|?]%elem_of_cons.
Qed.

Lemma set_wf d k v : dict_wf d → dict_wf (set k v d).
Proof.
  unfold dict_wf. rewrite set_keys. case_decide as Hk; [done|].
  intros Hd. apply NoDup_app. split_and!; [done| |apply NoDup_singleton].
  intros x Hx ->%list_elem_of_singleton. done.
Qed.

Lemma elem_of_set d k v k' v' :
  (k', v') ∈ set k v d → (k' = k ∧ v' = v) ∨ (k', v') ∈ d.
Proof.
  induction d as [|[k1 v1] d IH]; simpl.
  - intros [= -> ->]%list_elem_of_singleton. by left.
  - case_decide as Hk.
    + intros [[= -> ->]|Hin]%elem_of_cons; [by left|right; by right].
    + intros [[= -> ->]|Hin]%elem_of_cons; [right; by left|].
      destruct (IH Hin) as [?|?]; [by left|right; by right].
Qed.
End dict_facts.

(** ** [from_stem] *)

Section from_stem.
Import VaultConverter.
Implicit Types (self : VaultConverter.t) (path : Path).

Lemma elem_of_matches self stem_ path :
  path ∈ matches self stem_ ↔ stem_match self stem_ path.
Proof. unfold matches, stem_match. rewrite list_elem_of_filter. tauto. Qed.

Lemma from_stem_none self stem_ :
  (∀ path, ¬ stem_match self stem_ path) → from_stem self stem_ = Return None.
Proof.
  intros Hno. unfold from_stem. fold (matches self stem_).
  destruct (matches self stem_) as [|path more] eqn:Hm; [done|].
  destruct (Hno path). apply elem_of_matches. rewrite Hm. by left.
Qed.

Lemma from_stem_many self stem_ path1 path2 :
  path1 ≠ path2 → stem_match self stem_ path1 → stem_match self stem_ path2 →
  from_stem self stem_ = Raise (ValueError "Too many stem matches found").
Proof.
  intros Hne H1%elem_of_matches H2%elem_of_matches.
  unfold from_stem. fold (matches self stem_).
  destruct (matches self stem_) as [|p [|p' more]] eqn:Hm.
  - by apply elem_of_nil in H1.
  - apply list_elem_of_singleton in H1, H2. congruence.
  - done.
Qed.

Lemma from_stem_one self stem_ path note :
  dict_wf (vault_map self) →
  get path (vault_map self) = Some note → stem path = stem_ →
  (∀ path', stem_match self stem_ path' → path' = path) →
  from_stem self stem_ = Return (Some note).
Proof.
  intros Hwf Hget Hstem Huniq.
  assert (Hin : path ∈ matches self stem_).
  { apply elem_of_matches. split; [|done]. apply get_is_Some. eauto. }
  assert (Hnd : NoDup (matches self stem_)) by by apply NoDup_filter.
  unfold from_stem. fold (matches self stem_).
  destruct (matches self stem_) as [|p [|p' more]] eqn:Hm.
  - by apply elem_of_nil in Hin.
  - apply list_elem_of_singleton in Hin as <-. simpl. by rewrite Hget.
  - exfalso. apply NoDup_cons in Hnd as [Hp _]. apply Hp.
    assert (p = path) as ->.
    { apply Huniq, elem_of_matches. rewrite Hm. by left. }
    assert (p' = path) as ->.
    { apply Huniq, elem_of_matches. rewrite Hm. right. by left. }
    by left.
Qed.

(** What [from_stem] returns is a note of the vault. *)
Lemma from_stem_Some self stem_ note :
  from_stem self stem_ = Return (Some note) →
  ∃ path, get path (vault_map self) = Some note ∧ stem path = stem_.
Proof.
  unfold from_stem. fold (matches self stem_).
  destruct (matches self stem_) as [|p more] eqn:Hm; [done|].
  case_bool_decide; [done|].
  destruct (get p (vault_map self)) as [n|] eqn:Hget; [|done].
  intros [= ->]. exists p. split; [done|].
  assert (p ∈ matches self stem_) as Hin by (rewrite Hm; by left).
  by apply elem_of_matches in Hin as [_ ?].
Qed.
End from_stem.

(** ** Link resolution *)

Section ensure_link.
Import VaultConverter.
Implicit Types (self : VaultConverter.t) (path : Path) (fs : FS).

(** C2 (amended). Lookup by stem compares the file stems as they are
    written. *)
Theorem from_stem_trichotomy self (stem_ : string) :
  dict_wf (vault_map self) →
  ((∃ path1 path2, path1 ≠ path2 ∧
      stem_match self stem_ path1 ∧ stem_match self stem_ path2) →
   from_stem self stem_ = Raise (ValueError "Too many stem matches found")) ∧
  (∀ path note,
      get path (vault_map self) = Some note → stem path = stem_ →
      (∀ path', stem_match self stem_ path' → path' = path) →
      from_stem self stem_ = Return (Some note)) ∧
  ((∀ path, ¬ stem_match self stem_ path) →
   from_stem self stem_ = Return None).
Proof.
  intros Hwf. split_and!.
  - intros (path1 & path2 & Hne & H1 & H2). by eapply from_stem_many.
  - intros path note Hget Hstem Huniq. by eapply from_stem_one.
  - apply from_stem_none.
Qed.

Lemma from_stem_trichotomy_witness :
  dict_wf (vault_map Sample.vault) ∧
  from_stem Sample.vault "foo" = Return (Some Sample.foo).
Proof.
  assert (Hwf : dict_wf (vault_map Sample.vault)).
  { apply (bool_decide_unpack _). vm_compute. exact I. }
  split; [exact Hwf|].
  apply (proj1 (proj2 (from_stem_trichotomy Sample.vault "foo" Hwf))
           ["notes"; "foo.md"]).
  - reflexivity.
  - vm_compute. reflexivity.
  - intros path' [Hin Hstem]. 
    apply elem_of_cons in Hin as [->|Hin]; [reflexivity|].
    apply list_elem_of_singleton in Hin as ->. vm_compute in Hstem. discriminate.
Defined.

Lemma from_stem_normalized_counterexample :
  ¬ (∀ self stem_,
       dict_wf (vault_map self) →
       (∃ path1 path2, path1 ≠ path2 ∧
          path1 ∈ keys (vault_map self) ∧ path2 ∈ keys (vault_map self) ∧
          slugify (stem path1) = slugify stem_ ∧
          slugify (stem path2) = slugify stem_) →
       ∃ e, from_stem self stem_ = Raise e).
Proof.
  intros Hstated.
  destruct (Hstated Sample.vault_case "foo") as [e He].
  - apply (bool_decide_unpack _). vm_compute. exact I.
  - exists ["archive"; "Foo.md"], ["notes"; "foo.md"].
    split_and!; [done| | |by vm_compute|by vm_compute].
    + by left.
    + right. by left.
  - vm_compute in He. discriminate.
Qed.

Lemma ensure_link_found self requested link_text note fs :
  from_stem self (split_last requested) = Return (Some note) →
  ensure_link self requested link_text fs =
    (fs, Return (NoteConverter.get_org_roam_link note link_text)).
Proof. intros Hfound. unfold ensure_link, mbind, M_bind, lift. by rewrite Hfound. Qed.

Lemma ensure_link_not_found self requested link_text fs :
  from_stem self (split_last requested) = Return None →
  ensure_link self requested link_text fs =
    match asset_map self !! of_string requested with
    | Some asset_path =>
        let output_path := joinpath (output_dir self) (of_string requested) in
        match fs !! output_path, fs !! asset_path with
        | Some _, _ => (fs, Return ("[[" +:+ to_string (of_string requested) +:+ "]]"))
        | None, Some c =>
            (<[output_path := c]> fs,
             Return ("[[" +:+ to_string (of_string requested) +:+ "]]"))
        | None, None => (fs, Raise (FileNotFoundError asset_path))
        end
    | None =>
        (fs, Return ("/" +:+
               match link_text with
               | Some text => if bool_decide (text = "") then requested else text
               | None => requested
               end +:+ "/"))
    end.
Proof.
  intros Hnone. unfold ensure_link, mbind, M_bind, lift. rewrite Hnone.
  destruct (asset_map self !! of_string requested) as [asset_path|].
  - unfold FileSystem.is_file, FileSystem.copy, FileSystem.mkdir_parents,
      mret, M_ret. cbn zeta.
    destruct (fs !! joinpath (output_dir self) (of_string requested)) as [c|] eqn:Hout.
    + rewrite bool_decide_eq_true_2 by eauto. done.
    + rewrite bool_decide_eq_false_2 by (by intros [? ?]). cbn.
      by destruct (fs !! asset_path).
  - destruct link_text as [text|]; [|done].
    by case_bool_decide.
Qed.

(** C3. A reference whose last path segment is the stem of exactly
    one note resolves to the cross-reference to that note's identifier,
    displayed with the reference's text when it has one, else with the
    title of the note's prologue, else with the note's stem. *)
Theorem ensure_link_note self (requested : string) (link_text : option string)
    path note fs :
  dict_wf (vault_map self) →
  get path (vault_map self) = Some note →
  stem path = split_last requested →
  (∀ path', stem_match self (split_last requested) path' → path' = path) →
  ensure_link self requested link_text fs =
    (fs, Return ("[[id:" +:+ NoteConverter.slug note +:+ "][" +:+
                 match link_text with
                 | Some text => text
                 | None =>
                     match NoteConverter.meta note !! "title" with
                     | Some title =>
                         if truthy title then py_str title
                         else stem (NoteConverter.source note)
                     | None => stem (NoteConverter.source note)
                     end
                 end +:+ "]]")).
Proof.
  intros Hwf Hget Hstem Huniq.
  rewrite (ensure_link_found _ _ _ note).
  - unfold NoteConverter.get_org_roam_link, NoteConverter.title,
      NoteConverter.org_id, NoteConverter.meta.
    destruct link_text as [text|]; [done|].
    destruct (metadata (NoteConverter.md_note note) !! "title") as [title|]; [|done].
    by destruct (truthy title).
  - by eapply from_stem_one.
Qed.

Lemma sample_vault_wf : dict_wf (vault_map Sample.vault).
Proof. apply (bool_decide_unpack _). vm_compute. exact I. Qed.

Lemma sample_foo_unique path :
  stem_match Sample.vault "foo" path → path = ["notes"; "foo.md"].
Proof.
  intros [Hin Hstem].
  apply elem_of_cons in Hin as [->|Hin]; [reflexivity|].
  apply list_elem_of_singleton in Hin as ->. vm_compute in Hstem. discriminate.
Qed.

Lemma ensure_link_note_witness :
  ensure_link Sample.vault "notes/foo" None Sample.fs =
    (Sample.fs, Return "[[id:foo][Foo Title]]") ∧
  ensure_link Sample.vault "notes/foo" (Some "Custom") Sample.fs =
    (Sample.fs, Return "[[id:foo][Custom]]").
Proof.
  split.
  - apply (ensure_link_note Sample.vault "notes/foo" None ["notes"; "foo.md"]
             Sample.foo Sample.fs sample_vault_wf);
      [reflexivity|vm_compute; reflexivity|exact sample_foo_unique].
  - apply (ensure_link_note Sample.vault "notes/foo" (Some "Custom")
             ["notes"; "foo.md"] Sample.foo Sample.fs sample_vault_wf);
      [reflexivity|vm_compute; reflexivity|exact sample_foo_unique].
Defined.

(** With no note and no asset, [ensure_link] returns a placeholder:
    the display text between emphasis markers when there is one and it
    is not empty, the raw target between emphasis markers otherwise. *)
Lemma ensure_link_unmatched self (requested : string)
    (link_text : option string) fs :
  (∀ path, ¬ stem_match self (split_last requested) path) →
  asset_map self !! of_string requested = None →
  ensure_link self requested link_text fs =
    (fs, Return ("/" +:+
           match link_text with
           | Some text => if bool_decide (text = "") then requested else text
           | None => requested
           end +:+ "/")).
Proof.
  intros Hnote Hasset.
  rewrite ensure_link_not_found by by apply from_stem_none.
  by rewrite Hasset.
Qed.

Lemma sample_nowhere_unmatched path : ¬ stem_match Sample.vault "nowhere" path.
Proof.
  intros [Hin Hstem].
  apply elem_of_cons in Hin as [->|Hin]; [vm_compute in Hstem; discriminate|].
  apply list_elem_of_singleton in Hin as ->. vm_compute in Hstem. discriminate.
Qed.





Lemma append_not_empty (s t : string) : s ≠ "" → s +:+ t ≠ "".
Proof. by destruct s. Qed.


End ensure_link.

(** ** Titles *)

(** C10. A title that the prologue sets to a false value counts as no
    title: the metadata block and the text of links show the stem of the
    file, as they do when the key is absent. *)
Theorem title_falsy_fallback (note : NoteConverter.t) (value : yaml) :
  NoteConverter.meta note !! "title" = Some value →
  truthy value = false →
  NoteConverter.title note = YStr (stem (NoteConverter.source note)) ∧
  NoteConverter.title note = NoteConverter.title (without_title note) ∧
  NoteConverter.get_org_meta note = NoteConverter.get_org_meta (without_title note) ∧
  NoteConverter.get_org_roam_link note None =
    "[[id:" +:+ NoteConverter.slug note +:+ "][" +:+
    stem (NoteConverter.source note) +:+ "]]" ∧
  NoteConverter.get_org_roam_link note None =
    NoteConverter.get_org_roam_link (without_title note) None.
Proof.
  intros Hvalue Hfalsy.
  assert (NoteConverter.title note = YStr (stem (NoteConverter.source note))) as Ht.
  { unfold NoteConverter.title. unfold NoteConverter.meta in Hvalue.
    by rewrite Hvalue, Hfalsy. }
  assert (NoteConverter.title (without_title note) =
            YStr (stem (NoteConverter.source note))) as Ht'.
  { unfold NoteConverter.title, without_title. cbn. by rewrite lookup_delete_eq. }
  split_and!.
  - done.
  - by rewrite Ht, Ht'.
  - unfold NoteConverter.get_org_meta. by rewrite Ht, Ht'.
  - unfold NoteConverter.get_org_roam_link. by rewrite Ht.
  - unfold NoteConverter.get_org_roam_link. by rewrite Ht, Ht'.
Qed.

Lemma title_falsy_fallback_witness :
  NoteConverter.title Sample.untitled = YStr "untitled" ∧
  NoteConverter.get_org_meta Sample.untitled =
    Return [("title", YStr "untitled"); ("filetags", YStr ":notes:")] ∧
  NoteConverter.get_org_roam_link Sample.untitled None = "[[id:untitled][untitled]]".
Proof.
  destruct (title_falsy_fallback Sample.untitled (YStr ""))
    as (Ht & _ & _ & Hlink & _).
  - vm_compute. reflexivity.
  - reflexivity.
  - split_and!.
    + exact Ht.
    + unfold NoteConverter.get_org_meta. rewrite Ht. vm_compute. reflexivity.
    + exact Hlink.
Defined.

(** ** Output file names *)

Lemma append_assoc (s t u : string) : (s +:+ t) +:+ u = s +:+ t +:+ u.
Proof. induction s as [|c s IH]; [done|]. by rewrite !append_cons, IH. Qed.

Lemma length_append (s t : string) :
  String.length (s +:+ t) = String.length s + String.length t.
Proof. induction s as [|c s IH]; [done|]. rewrite append_cons. simpl. by rewrite IH. Qed.

Lemma take_append (s t : string) : PyStr.take (String.length s) (s +:+ t) = s.
Proof. induction s as [|c s IH]; [by destruct t|]. rewrite append_cons. simpl. by rewrite IH. Qed.

Lemma drop_append (s t : string) : PyStr.drop (String.length s) (s +:+ t) = t.
Proof. induction s as [|c s IH]; [by destruct t|]. by rewrite append_cons. Qed.

Lemma take_while_append p (s t : string) :
  PyStr.forallb p s = true → PyStr.take_while p t = "" →
  PyStr.take_while p (s +:+ t) = s.
Proof.
  induction s as [|c s IH]; [done|]. rewrite append_cons. simpl.
  intros [Hc Hs]%andb_true_iff Ht. by rewrite Hc, IH.
Qed.

Lemma drop_while_append p (s t : string) :
  PyStr.forallb p s = true → PyStr.drop_while p t = t →
  PyStr.drop_while p (s +:+ t) = t.
Proof.
  induction s as [|c s IH]; [done|]. rewrite append_cons. simpl.
  intros [Hc Hs]%andb_true_iff Ht. by rewrite Hc, IH.
Qed.

Lemma digit_char_is_digit n : PyStr.is_digit (digit_char n) = true.
Proof.
  unfold digit_char. pose proof (Nat.mod_upper_bound n 10) as Hlt.
  destruct (n mod 10) as [|[|[|[|[|[|[|[|[|[|k]]]]]]]]]]; try reflexivity. lia.
Qed.

Lemma zero_padded_digits w n :
  String.length (zero_padded w n) = w ∧
  PyStr.forallb PyStr.is_digit (zero_padded w n) = true.
Proof.
  revert n. induction w as [|w IH]; intros n; [done|].
  destruct (IH (n / 10)) as [Hlen Hdig].
  change (zero_padded (S w) n)
    with (zero_padded w (n / 10) +:+ String (digit_char n) "").
  rewrite length_append, forallb_app, Hlen, Hdig.
  change (String.length (String (digit_char n) "")) with 1.
  change (PyStr.forallb PyStr.is_digit (String (digit_char n) ""))
    with (PyStr.is_digit (digit_char n) && true).
  rewrite digit_char_is_digit. split; [lia|done].
Qed.

(** From year 1000 on the year takes its four digits. *)
Lemma decimal_fuel_padded (w n fuel : nat) :
  1 ≤ w → w ≤ fuel → (w = 1 ∨ 10 ^ (w - 1) ≤ n) → n < 10 ^ w →
  decimal_fuel fuel n = zero_padded w n.
Proof.
  revert n fuel. induction w as [|w IH]; intros n fuel Hw Hfuel Hlow Hhigh; [lia|].
  destruct fuel as [|fuel]; [lia|].
  change (zero_padded (S w) n)
    with (zero_padded w (n / 10) +:+ String (digit_char n) "").
  cbn [decimal_fuel].
  destruct w as [|w].
  - change (10 ^ 1) with 10 in Hhigh.
    by rewrite (proj2 (Nat.ltb_lt n 10)) by done.
  - assert (10 ^ S w ≤ n) as Hlow'.
    { destruct Hlow as [?|Hlow]; [lia|]. by replace (S (S w) - 1) with (S w) in Hlow by lia. }
    assert (10 ≤ n) as Hten.
    { etrans; [|exact Hlow']. change 10 with (10 ^ 1) at 1.
      apply Nat.pow_le_mono_r; lia. }
    rewrite (proj2 (Nat.ltb_ge n 10)) by done.
    rewrite (IH (n / 10) fuel); [done|lia|lia| |].
    + right. replace (S w - 1) with w by lia.
      apply Nat.div_le_lower_bound; [lia|].
      rewrite Nat.pow_succ_r' in Hlow'. lia.
    + apply Nat.Div0.div_lt_upper_bound.
      rewrite Nat.pow_succ_r' in Hhigh. lia.
Qed.

Lemma decimal_four_digits (n : nat) :
  (1000 <=? n) && (n <=? 9999) = true → decimal n = zero_padded 4 n.
Proof.
  intros [Hlow%Nat.leb_le Hhigh%Nat.leb_le]%andb_true_iff. unfold decimal.
  apply decimal_fuel_padded; [lia|lia| |].
  - right. change (10 ^ (4 - 1)) with 1000. lia.
  - assert (9999 = 9 * 1000 + 999) as Heq by (vm_compute; reflexivity).
    rewrite Heq in Hhigh. change (10 ^ 4) with (10 * 1000). lia.
Qed.

Lemma strftime_compact_digits t :
  four_digit_year t = true →
  String.length (strftime_compact t) = 14 ∧
  PyStr.forallb PyStr.is_digit (strftime_compact t) = true.
Proof.
  intros Hyear. unfold strftime_compact. rewrite decimal_four_digits by done.
  rewrite !length_append, !forallb_app.
  destruct (zero_padded_digits 4 (year t)) as [-> ->].
  destruct (zero_padded_digits 2 (month t)) as [-> ->].
  destruct (zero_padded_digits 2 (day t)) as [-> ->].
  destruct (zero_padded_digits 2 (hour t)) as [-> ->].
  destruct (zero_padded_digits 2 (minute t)) as [-> ->].
  destruct (zero_padded_digits 2 (second t)) as [-> ->].
  done.
Qed.

Lemma strftime_timestamp (created : yaml) (t : datetime) :
  timestamp_of created = Some t →
  NoteConverter.strftime created = Return (strftime_compact t).
Proof. destruct created; try done; by intros [= <-]. Qed.

Lemma lowered_alnum_identifier c :
  PyStr.is_alnum c = true → PyStr.lower_char c = c → is_identifier_char c = true.
Proof.
  destruct c as [[] [] [] [] [] [] [] []]; vm_compute; congruence.
Qed.

Lemma slugify_identifier text :
  PyStr.forallb is_identifier_char (slugify text) = true.
Proof.
  unfold slugify.
  pose proof (alnum_words_spec _ _ (forallb_lower text)) as Hws.
  induction Hws as [|w ws (_ & Hal & Hlow) Hws IH]; [done|].
  assert (PyStr.forallb is_identifier_char w = true) as Hw.
  { clear -Hal Hlow. induction w as [|c w IH]; [done|]. simpl in *.
    apply andb_true_iff in Hal as [Hc Hal]. apply andb_true_iff in Hlow as [Hc' Hlow].
    apply bool_decide_eq_true in Hc'.
    by rewrite lowered_alnum_identifier, IH. }
  destruct ws as [|w' ws']; [done|].
  change (PyStr.join "_" (w :: w' :: ws')) with (w +:+ "_" +:+ PyStr.join "_" (w' :: ws')).
  by rewrite !forallb_app, Hw, IH.
Qed.

Lemma output_name_matches_intro (timestamp identifier : string) :
  String.length timestamp = 14 →
  PyStr.forallb PyStr.is_digit timestamp = true →
  identifier ≠ "" →
  PyStr.forallb is_identifier_char identifier = true →
  output_name_matches (timestamp +:+ "-" +:+ identifier +:+ ".org") = true.
Proof.
  intros Hlen Hdig Hne Hid. unfold output_name_matches.
  pose proof (take_append timestamp ("-" +:+ identifier +:+ ".org")) as Htake.
  pose proof (drop_append timestamp ("-" +:+ identifier +:+ ".org")) as Hdrop.
  rewrite Hlen in Htake, Hdrop. rewrite Htake, Hdrop.
  rewrite bool_decide_eq_true_2, Hdig by done.
  change ("-" +:+ identifier +:+ ".org") with (String "-"%char (identifier +:+ ".org")).
  cbn match. rewrite take_while_append, drop_while_append by done.
  rewrite bool_decide_eq_false_2 by done. by rewrite bool_decide_eq_true_2.
Qed.

(** C6 (amended). The output name of a note whose creation timestamp
    has a year of four digits and whose stem holds a letter or a digit
    is the fourteen digits of the timestamp, a hyphen, the identifier
    and [.org], and matches the pattern; without a timestamp [org_path]
    raises. *)
Theorem org_path_contract (note : NoteConverter.t) :
  NoteConverter.slug note = slugify (stem (NoteConverter.source note)) →
  (∀ created t,
      NoteConverter.meta note !! "created" = Some created →
      timestamp_of created = Some t →
      four_digit_year t = true →
      NoteConverter.slug note ≠ "" →
      NoteConverter.org_path note =
        Return (strftime_compact t +:+ "-" +:+ NoteConverter.slug note +:+ ".org") ∧
      String.length (strftime_compact t) = 14 ∧
      PyStr.forallb PyStr.is_digit (strftime_compact t) = true ∧
      output_name_matches
        (strftime_compact t +:+ "-" +:+ NoteConverter.slug note +:+ ".org") = true) ∧
  (NoteConverter.meta note !! "created" = None →
   NoteConverter.org_path note = Raise (KeyError "created")) ∧
  (∀ created,
      NoteConverter.meta note !! "created" = Some created →
      timestamp_of created = None →
      NoteConverter.org_path note = Raise (AttributeError "strftime")).
Proof.
  intros Hslug. split_and!.
  - intros created t Hcreated Ht Hyear Hne.
    destruct (strftime_compact_digits t Hyear) as [Hlen Hdig].
    split_and!; [|done|done|].
    + unfold NoteConverter.org_path.
      by rewrite Hcreated, (strftime_timestamp _ _ Ht).
    + apply output_name_matches_intro; [done..|].
      rewrite Hslug. apply slugify_identifier.
  - intros Hnone. unfold NoteConverter.org_path. by rewrite Hnone.
  - intros created Hcreated Hts. unfold NoteConverter.org_path.
    rewrite Hcreated. by destruct created.
Qed.

Lemma org_path_contract_witness :
  NoteConverter.org_path Sample.foo = Return "20240105130700-foo.org" ∧
  output_name_matches "20240105130700-foo.org" = true ∧
  NoteConverter.org_path Sample.undated = Raise (KeyError "created").
Proof.
  destruct (org_path_contract Sample.foo eq_refl) as (Hname & _ & _).
  destruct (Hname Sample.created (mk_datetime 2024 1 5 13 7 0))
    as (Hpath & _ & _ & Hmatch).
  - vm_compute. reflexivity.
  - reflexivity.
  - vm_compute. reflexivity.
  - vm_compute. discriminate.
  - split_and!; [exact Hpath|exact Hmatch|].
    apply (org_path_contract Sample.undated eq_refl). vm_compute. reflexivity.
Defined.

(** A stem without a letter or a digit leaves the identifier empty. *)
Lemma org_path_contract_counterexample :
  ¬ (∀ note created,
       NoteConverter.slug note = slugify (stem (NoteConverter.source note)) →
       NoteConverter.meta note !! "created" = Some created →
       is_timestamp created = true →
       ∃ name, NoteConverter.org_path note = Return name ∧
               output_name_matches name = true).
Proof.
  intros Hstated.
  destruct (Hstated Sample.symbols Sample.created) as (name & Hname & Hmatch).
  - reflexivity.
  - vm_compute. reflexivity.
  - reflexivity.
  - vm_compute in Hname. injection Hname as <-. vm_compute in Hmatch. discriminate.
Qed.

(** A year below 1000 is printed on fewer than four digits: the name
    of a note created on 5 January 999 starts with thirteen digits. *)
Example org_path_early_year :
  let note := Sample.note ["notes"; "foo.md"] {[ "created" := YDate 999 1 5 ]} "" in
  NoteConverter.org_path note = Return "9990105000000-foo.org" ∧
  output_name_matches "9990105000000-foo.org" = false.
Proof. split; vm_compute; reflexivity. Qed.

(** ** Discovery *)

Lemma relative_to_app (path base vault_path : Path) :
  relative_to path base = Some vault_path → path = base ++ vault_path.
Proof.
  revert path. induction base as [|b base IH]; intros path.
  - destruct path; simpl; intros Hrel; by injection Hrel.
  - destruct path as [|w path]; [done|]. simpl.
    case_decide as Hb; [|done]. intros Hrel. subst. f_equal. by apply IH.
Qed.

Lemma startswith_take (i : nat) (n : string) :
  0 < i → PyStr.startswith "_" (PyStr.take i n) = PyStr.startswith "_" n.
Proof.
  intros Hi. destruct i as [|i]; [lia|]. destruct n as [|c r]; [done|].
  simpl. case_decide; [|done]. by destruct (PyStr.take i r), r.
Qed.

(** The marker test sees the same first character on the stem of a
    directory as on its name. *)
Lemma startswith_stem_name (path : Path) :
  PyStr.startswith "_" (stem path) = PyStr.startswith "_" (name path).
Proof.
  unfold stem. destruct (PyStr.rfind_dot (name path)) as [i|]; [|done].
  case_bool_decide as Hi; [|done]. simpl.
  destruct (bool_decide _); [|done]. by apply startswith_take.
Qed.

(** *** The configuration test

    [str(path)] holds ["/config/"] as soon as a directory of the path
    other than its first part is named [config]. *)

Lemma startswith_append (p s t : string) :
  PyStr.startswith p s = true → PyStr.startswith p (s +:+ t) = true.
Proof.
  revert s. induction p as [|a p IH]; intros s; [done|].
  destruct s as [|b s]; [done|]. rewrite append_cons. cbn [PyStr.startswith].
  case_decide; [apply IH|done].
Qed.

Lemma contains_append_r (p s t : string) :
  PyStr.contains p t = true → PyStr.contains p (s +:+ t) = true.
Proof.
  intros Ht. induction s as [|c s IH]; [done|].
  rewrite append_cons. cbn [PyStr.contains]. rewrite IH. apply orb_true_r.
Qed.

Lemma join_app (sep : string) (ws1 ws2 : list string) :
  ws1 ≠ [] → ws2 ≠ [] →
  PyStr.join sep (ws1 ++ ws2) = PyStr.join sep ws1 +:+ sep +:+ PyStr.join sep ws2.
Proof.
  intros H1 H2. induction ws1 as [|w ws1 IH]; [done|].
  destruct ws1 as [|w' ws1].
  - destruct ws2; done.
  - change (PyStr.join sep ((w :: w' :: ws1) ++ ws2))
      with (w +:+ sep +:+ PyStr.join sep ((w' :: ws1) ++ ws2)).
    rewrite IH by done.
    change (PyStr.join sep (w :: w' :: ws1))
      with (w +:+ sep +:+ PyStr.join sep (w' :: ws1)).
    by rewrite !append_assoc.
Qed.

Lemma join_config (ws after : list string) :
  after ≠ [] →
  PyStr.contains "/config/"
    (PyStr.join "/" ws +:+ "/" +:+ PyStr.join "/" ("config" :: after)) = true.
Proof.
  intros Hafter. apply contains_append_r.
  destruct after as [|w after]; [done|].
  change (PyStr.join "/" ("config" :: w :: after))
    with ("config" +:+ "/" +:+ PyStr.join "/" (w :: after)).
  reflexivity.
Qed.

Lemma config_segment_contains (before after : Path) :
  before ≠ [] → after ≠ [] →
  PyStr.contains "/config/" (to_string (before ++ "config" :: after)) = true.
Proof.
  intros Hbefore Hafter. destruct before as [|r before]; [done|].
  cbn [app to_string]. destruct (is_root r) eqn:Hroot.
  - destruct before as [|w before].
    + cbn [app]. destruct after as [|w after]; [done|].
      change (PyStr.join "/" ("config" :: w :: after))
        with ("config" +:+ "/" +:+ PyStr.join "/" (w :: after)).
      unfold is_root in Hroot.
      apply orb_true_iff in Hroot as [->%bool_decide_eq_true| ->%bool_decide_eq_true];
        reflexivity.
    + rewrite join_app by done. apply contains_append_r. by apply join_config.
  - change (r :: before ++ "config" :: after)
      with ((r :: before) ++ "config" :: after).
    rewrite join_app by done. by apply join_config.
Qed.

Section discovery.
Context `{Collaborators}.
Implicit Types (maps : gmap Path Path * dict Path NoteConverter.t).

Lemma discover_path_ok input_dir output_dir maps path fs fs' maps' :
  indexed_ok input_dir maps →
  discover_path input_dir output_dir maps path fs = (fs', Return maps') →
  indexed_ok input_dir maps'.
Proof.
  intros [Hnotes Hassets]. unfold discover_path.
  destruct maps as [asset_map vault_map]. cbn [fst snd] in *.
  destruct (relative_to path input_dir) as [vault_path|] eqn:Hrel; [|done].
  case_bool_decide as Hasset.
  { intros [= <- <-]. split; [done|]. cbn [fst]. intros k v.
    rewrite lookup_insert. case_decide as Hk.
    - intros [= <-]. by subst.
    - apply Hassets. }
  case_bool_decide as Hcontent; [|by intros [= <- <-]].
  destruct (PyStr.startswith "_" (stem (parent path))) eqn:Hdir;
    [by intros [= <- <-]|].
  destruct (PyStr.startswith "_" (stem path)) eqn:Hstem; [by intros [= <- <-]|].
  destruct (PyStr.contains "/config/" (to_string path)) eqn:Hconfig;
    [by intros [= <- <-]|].
  unfold NoteConverter.init, FileSystem.read_text, mbind, M_bind, mret, M_ret.
  destruct (fs !! path) as [text|]; [|done].
  intros [= <- <-]. split; [|done]. cbn [snd]. intros k note Hin.
  apply elem_of_set in Hin as [[-> ->]|Hin]; [|by apply Hnotes].
  cbn. split; [|done]. unfold excluded.
  by rewrite <- startswith_stem_name, Hdir, Hstem, Hconfig.
Qed.

Lemma discover_ok input_dir output_dir paths maps fs fs' maps' :
  indexed_ok input_dir maps →
  discover input_dir output_dir paths maps fs = (fs', Return maps') →
  indexed_ok input_dir maps'.
Proof.
  revert maps fs. induction paths as [|path paths IH]; intros maps fs Hok.
  - by intros [= <- <-].
  - cbn [discover]. unfold mbind, M_bind.
    destruct (discover_path input_dir output_dir maps path fs)
      as [fs1 [maps1|e]] eqn:Hstep; [|done].
    apply IH. by eapply discover_path_ok.
Qed.

Lemma indexed_ok_empty input_dir : indexed_ok input_dir (∅, []).
Proof.
  split; cbn.
  - by intros ? ? ?%elem_of_nil.
  - intros ? ?. by rewrite lookup_empty.
Qed.

(** C7 (amended). A content file whose directory name or whose own
    name starts with the marker, or whose path as [main] writes it
    holds ["/config/"], which it does as soon as a directory of the
    path other than its first part is named [config], is in neither map
    of the index, so it is never rendered and never copied. *)
Theorem discovery_excludes_content input_dir output_dir (glob : list Path)
    fs fs' maps (path vault_path : Path) :
  discover input_dir output_dir glob (∅, []) fs = (fs', Return maps) →
  suffix path ∈ CONTENT_SUFFIXES →
  (PyStr.startswith "_" (name (parent path)) = true ∨
   PyStr.startswith "_" (stem path) = true ∨
   PyStr.contains "/config/" (to_string path) = true ∨
   (∃ before after : Path,
       before ≠ [] ∧ after ≠ [] ∧ path = before ++ "config" :: after)) →
  relative_to path input_dir = Some vault_path →
  (vault_path ∉ keys (snd maps)) ∧
  maps.1 !! vault_path = None ∧
  (∀ note, note ∈ values maps.2 → NoteConverter.source note ≠ path) ∧
  (∀ k, maps.1 !! k ≠ Some path).
Proof.
  intros Hrun Hcontent Hrule Hrel.
  assert (excluded path = true) as Hex.
  { unfold excluded.
    destruct Hrule as [-> | [-> | [-> | (before & after & Hb & Ha & ->)]]];
      rewrite ?orb_true_r; [done..|].
    by rewrite config_segment_contains, orb_true_r. }
  assert (suffix path ∉ ASSET_SUFFIXES) as Hnot_asset.
  { unfold CONTENT_SUFFIXES in Hcontent. apply list_elem_of_singleton in Hcontent.
    rewrite Hcontent. unfold ASSET_SUFFIXES.
    intros [?|[?|?%elem_of_nil]%elem_of_cons]%elem_of_cons; done. }
  destruct (discover_ok _ _ _ _ _ _ _ (indexed_ok_empty input_dir) Hrun)
    as [Hnotes Hassets].
  assert (∀ note, note ∈ values maps.2 → NoteConverter.source note ≠ path)
    as Hsources.
  { intros note Hin Hsrc. unfold values in Hin.
    apply list_elem_of_fmap in Hin as ([k n] & -> & Hin).
    destruct (Hnotes _ _ Hin) as [Hfalse _]. cbn in Hsrc.
    rewrite Hsrc, Hex in Hfalse. done. }
  assert (∀ k, maps.1 !! k ≠ Some path) as Hcopies.
  { intros k Hk. destruct (Hassets _ _ Hk) as [Hsuf _]. done. }
  split_and!; [| |done|done].
  - unfold keys. intros Hin.
    apply list_elem_of_fmap in Hin as ([k n] & -> & Hin).
    destruct (Hnotes _ _ Hin) as [_ Hrel']. cbn in Hrel'.
    apply relative_to_app in Hrel, Hrel'.
    apply (Hsources n).
    + unfold values. apply list_elem_of_fmap. by exists (k, n).
    + cbn in Hrel. congruence.
  - destruct (maps.1 !! vault_path) as [asset_path|] eqn:Hk; [|done].
    destruct (Hassets _ _ Hk) as [_ Hrel'].
    apply relative_to_app in Hrel, Hrel'. destruct (Hcopies vault_path).
    congruence.
Qed.
End discovery.

Lemma sample_discover_run :
  discover (H:=Sample.collaborators) Sample.vault_dir Sample.out_dir Sample.glob
    (∅, []) Sample.tree = (Sample.tree, Return Sample.discovered).
Proof.
  assert (match discover (H:=Sample.collaborators) Sample.vault_dir
                  Sample.out_dir Sample.glob (∅, []) Sample.tree with
          | (fs', Return _) => bool_decide (fs' = Sample.tree)
          | _ => false
          end = true) as Hok by (vm_compute; reflexivity).
  unfold Sample.discovered.
  destruct (discover _ _ _ _ _) as [fs' [maps|e]]; [|done].
  by apply bool_decide_eq_true in Hok as ->.
Qed.

Lemma discovery_excludes_content_witness :
  (["config"; "emacs.md"] ∉ keys (snd Sample.discovered)) ∧
  Sample.discovered.1 !! ["config"; "emacs.md"] = None ∧
  (∀ note, note ∈ values Sample.discovered.2 →
           NoteConverter.source note ≠ ["/"; "vault"; "config"; "emacs.md"]) ∧
  (∀ k, Sample.discovered.1 !! k ≠ Some ["/"; "vault"; "config"; "emacs.md"]).
Proof.
  apply (discovery_excludes_content (H:=Sample.collaborators)
           Sample.vault_dir Sample.out_dir Sample.glob Sample.tree Sample.tree
           Sample.discovered ["/"; "vault"; "config"; "emacs.md"]
           ["config"; "emacs.md"] sample_discover_run).
  - vm_compute. left.
  - do 3 right. exists ["/"; "vault"], ["emacs.md"]. by split_and!.
  - vm_compute. reflexivity.
Defined.

(** A picture in a marked directory is indexed all the same. *)
Lemma discovery_excludes_counterexample :
  ¬ (∀ (H : Collaborators) input_dir output_dir (glob : list Path) fs fs' maps
       (path vault_path : Path),
       discover input_dir output_dir glob (∅, []) fs = (fs', Return maps) →
       path ∈ glob →
       (PyStr.startswith "_" (name (parent path)) = true ∨
        PyStr.startswith "_" (stem path) = true ∨
        PyStr.contains "/config/" (to_string path) = true) →
       relative_to path input_dir = Some vault_path →
       (vault_path ∉ keys (snd maps)) ∧ maps.1 !! vault_path = None).
Proof.
  intros Hstated.
  destruct (Hstated Sample.collaborators _ _ _ _ _ _
              ["/"; "vault"; "_private"; "pic.png"] ["_private"; "pic.png"]
              sample_discover_run) as [_ Hasset].
  - vm_compute. do 4 right. left.
  - left. vm_compute. reflexivity.
  - vm_compute. reflexivity.
  - assert (Sample.discovered.1 !! ["_private"; "pic.png"] =
            Some ["/"; "vault"; "_private"; "pic.png"]) as Hindexed
      by (vm_compute; reflexivity).
    pose proof (eq_trans (eq_sym Hindexed) Hasset) as Hboth. discriminate.
Qed.

(** With a relative input directory the configuration directory at
    the top of the vault is the first part of the path: the text of the
    path does not hold ["/config/"], and the note is indexed. *)
Example discovery_config_at_head :
  let tree : FS := {[ ["config"; "emacs.md"] := "created: 2024-01-05" ]} in
  to_string ["config"; "emacs.md"] = "config/emacs.md" ∧
  ∃ maps,
    discover (H:=Sample.collaborators) [] Sample.out_dir [["config"; "emacs.md"]]
      (∅, []) tree = (tree, Return maps) ∧
    keys (snd maps) = [["config"; "emacs.md"]].
Proof. split; [reflexivity|]. eexists. split; vm_compute; reflexivity. Qed.

(** ** The chunks of the pool *)

Section chunks.
Context {A : Type}.
Implicit Types (it : list A) (size : nat).

Lemma get_tasks_fuel_concat fuel size it :
  length it ≤ fuel → 1 ≤ size →
  mjoin (Pool.get_tasks_fuel fuel size it) = it.
Proof.
  revert it. induction fuel as [|fuel IH]; intros it Hlen Hsize.
  - destruct it; [done|simpl in Hlen; lia].
  - cbn [Pool.get_tasks_fuel].
    destruct (take size it) as [|x xs] eqn:Htake.
    + destruct it as [|y it]; [done|]. destruct size; [lia|done].
    + rewrite <- Htake. change (mjoin (?l :: ?ls)) with (l ++ mjoin ls).
      rewrite IH; [apply take_drop| |done].
      rewrite length_drop. destruct it; simpl in *; lia.
Qed.

Lemma chunksize_positive processes len : 1 ≤ len → 1 ≤ Pool.chunksize processes len.
Proof.
  intros Hlen. unfold Pool.chunksize. case_bool_decide as Hextra; [lia|].
  destruct (decide (processes * 4 = 0)) as [Hz|Hz].
  - rewrite Hz in Hextra. simpl in Hextra. lia.
  - pose proof (Nat.div_mod len (processes * 4) Hz) as Hdiv.
    destruct (len `div` (processes * 4)); lia.
Qed.

(** Every item of the iterable is in one of the chunks. *)
Lemma get_tasks_cover processes it x :
  x ∈ it →
  ∃ chunk, chunk ∈ Pool.get_tasks (Pool.chunksize processes (length it)) it ∧
           x ∈ chunk.
Proof.
  intros Hx.
  assert (1 ≤ length it) as Hlen by (destruct it; [by apply elem_of_nil in Hx|simpl; lia]).
  pose proof (get_tasks_fuel_concat (length it) _ it (le_n _)
                (chunksize_positive processes _ Hlen)) as Hconcat.
  fold (Pool.get_tasks (Pool.chunksize processes (length it)) it) in Hconcat.
  rewrite <- Hconcat in Hx. apply list_elem_of_join in Hx as (chunk & Hin & Hchunk).
  eauto.
Qed.

Lemma get_tasks_subset size it chunk x :
  chunk ∈ Pool.get_tasks size it → x ∈ chunk → x ∈ it.
Proof.
  unfold Pool.get_tasks. generalize (length it) as fuel.
  intros fuel. revert it. induction fuel as [|fuel IH]; intros it.
  - by intros ?%elem_of_nil.
  - cbn [Pool.get_tasks_fuel].
    destruct (take size it) as [|y ys] eqn:Htake; [by intros ?%elem_of_nil|].
    rewrite <- Htake. intros [->|Hin]%elem_of_cons Hx.
    + rewrite <- (take_drop size it). apply elem_of_app. by left.
    + rewrite <- (take_drop size it). apply elem_of_app. right. by eapply IH.
Qed.
End chunks.

(** ** Link resolution and the files *)

Section render_facts.
Implicit Types (fs : FS).

Lemma ensure_link_raise vault requested link_text e fs :
  VaultConverter.from_stem vault (VaultConverter.split_last requested) = Raise e →
  VaultConverter.ensure_link vault requested link_text fs = (fs, Raise e).
Proof.
  intros He. unfold VaultConverter.ensure_link, mbind, M_bind, lift.
  by rewrite He.
Qed.

(** An ambiguous stem fails the link, and [find_link] lets it pass. *)
Lemma find_link_ambiguous vault m e fs :
  VaultConverter.from_stem vault (VaultConverter.split_last (OrgLink.link m)) = Raise e →
  find_link vault m fs = (fs, Raise e).
Proof.
  intros He. unfold find_link, mbind, M_bind.
  by rewrite (ensure_link_raise _ _ _ e).
Qed.

(** *** Files are only ever added *)

Lemma ensure_link_dom vault requested link_text fs :
  dom fs ⊆ dom (VaultConverter.ensure_link vault requested link_text fs).1.
Proof.
  destruct (VaultConverter.from_stem vault (VaultConverter.split_last requested))
    as [[note|]|e] eqn:Hstem.
  - by rewrite (ensure_link_found _ _ _ note).
  - rewrite ensure_link_not_found by done.
    destruct (VaultConverter.asset_map vault !! of_string requested); [|done].
    cbn zeta. destruct (fs !! joinpath _ _); [done|].
    destruct (fs !! _); [|done]. cbn. rewrite dom_insert_L. set_solver.
  - by rewrite (ensure_link_raise _ _ _ e).
Qed.

Lemma find_link_dom vault m fs : dom fs ⊆ dom (find_link vault m fs).1.
Proof.
  unfold find_link, mbind, M_bind.
  pose proof (ensure_link_dom vault (OrgLink.link m) (OrgLink.title m) fs) as Hdom.
  destruct (VaultConverter.ensure_link _ _ _ _) as [fs1 [link|e]]; [|done].
  by destruct (negb _).
Qed.

Lemma sub_from_dom (repl : OrgLink.Match → M string) skip (s : string) fs :
  (∀ m fs0, dom fs0 ⊆ dom (repl m fs0).1) →
  dom fs ⊆ dom (OrgLink.sub_from repl skip s fs).1.
Proof.
  intros Hrepl. revert skip fs.
  induction s as [|c s IH]; intros skip fs; [done|].
  cbn [OrgLink.sub_from]. destruct skip as [|skip]; [|apply IH].
  destruct (OrgLink.match_at (String c s)) as [m|].
  - unfold mbind, M_bind. pose proof (Hrepl m fs) as Hm.
    destruct (repl m fs) as [fs1 [new|e]]; [|done].
    pose proof (IH (String.length (OrgLink.group0 m) - 1) fs1) as Hs.
    destruct (OrgLink.sub_from _ _ _ _) as [fs2 [tail|e]]; cbn in *; set_solver.
  - unfold mbind, M_bind. pose proof (IH 0 fs) as Hs.
    by destruct (OrgLink.sub_from _ _ _ _) as [fs2 [tail|e]].
Qed.

End render_facts.

(** ** Further facts *)

(** [find_link] never falls back on the matched text: what
    [ensure_link] returns is never empty. *)
Lemma find_link_is_ensure_link (vault : VaultConverter.t) (m : OrgLink.Match) (fs : FS) :
  find_link vault m fs =
  VaultConverter.ensure_link vault (OrgLink.link m) (OrgLink.title m) fs.
Proof.
  unfold find_link, mbind, M_bind.
  destruct (VaultConverter.from_stem vault
              (VaultConverter.split_last (OrgLink.link m))) as [[note|]|e] eqn:Hstem.
  - rewrite (ensure_link_found _ _ _ note) by done.
    by rewrite bool_decide_eq_false_2 by by apply append_not_empty.
  - rewrite ensure_link_not_found by done.
    destruct (VaultConverter.asset_map vault !! of_string (OrgLink.link m)).
    + cbn zeta. destruct (fs !! joinpath _ _); [|destruct (fs !! _); [|done]];
        by rewrite bool_decide_eq_false_2 by by apply append_not_empty.
    + by rewrite bool_decide_eq_false_2 by by apply append_not_empty.
  - by rewrite (ensure_link_raise _ _ _ e).
Qed.

(** The display text of a parsed reference is never empty, so the
    placeholder of a parsed reference shows the text whenever there is
    one. *)
Lemma group_bracket_not_empty (s w rest : string) :
  OrgLink.group_bracket s = Some (w, rest) → w ≠ "".
Proof.
  unfold OrgLink.group_bracket.
  destruct (OrgLink.until_bracket s) as [[w' rest']|]; [|done]. cbn.
  case_bool_decide; [done|]. by intros [= <- <-].
Qed.

Lemma match_at_title_not_empty (s : string) (m : OrgLink.Match) :
  OrgLink.match_at s = Some m → OrgLink.link m ≠ "" ∧ OrgLink.title m ≠ Some "".
Proof.
  unfold OrgLink.match_at. destruct (PyStr.startswith _ s); [|done].
  destruct (OrgLink.group_bracket (PyStr.drop 7 s)) as [[link rest]|] eqn:Hlink;
    [|done].
  apply group_bracket_not_empty in Hlink. cbn.
  destruct rest as [|c rest]; [done|].
  destruct (Ascii.ascii_dec c "["%char) as [->|Hc].
  - destruct (OrgLink.group_bracket rest) as [[title rest']|] eqn:Htitle; [|done].
    apply group_bracket_not_empty in Htitle.
    destruct rest' as [|c' rest']; [done|].
    destruct (Ascii.ascii_dec c' "]"%char) as [->|Hc'].
    + intros [= <-]. cbn. split; [done|]. by intros [= ->].
    + by destruct c' as [[] [] [] [] [] [] [] []].
  - destruct (Ascii.ascii_dec c "]"%char) as [->|Hc'].
    + intros [= <-]. by cbn.
    + by destruct c as [[] [] [] [] [] [] [] []].
Qed.

(** The constructor sets the identifier to the normalized stem. *)
Lemma init_slug `{Collaborators} (input_dir output_dir source : Path)
    (fs fs' : FS) (note : NoteConverter.t) :
  NoteConverter.init input_dir output_dir source fs = (fs', Return note) →
  NoteConverter.source note = source ∧
  NoteConverter.slug note = slugify (stem (NoteConverter.source note)).
Proof.
  unfold NoteConverter.init, FileSystem.read_text, mbind, M_bind, mret, M_ret.
  destruct (fs !! source); [|done]. by intros [= <- <-].
Qed.

(** A text with a letter or a digit has an identifier. *)
Lemma alnum_words_not_nil (s : string) :
  PyStr.forallb (λ c, negb (PyStr.is_alnum c)) s = false → alnum_words s ≠ [].
Proof.
  induction s as [|c s IH]; [done|]. rewrite alnum_words_cons. simpl.
  destruct (PyStr.is_alnum c); simpl; [|exact IH].
  intros _. destruct (alnum_words s); [done|]. by destruct (starts_alnum s).
Qed.

Lemma lower_char_alnum (c : ascii) :
  PyStr.is_alnum (PyStr.lower_char c) = PyStr.is_alnum c.
Proof. destruct c as [[] [] [] [] [] [] [] []]; vm_compute; reflexivity. Qed.

Lemma slugify_not_empty (text : string) :
  PyStr.forallb (λ c, negb (PyStr.is_alnum c)) text = false → slugify text ≠ "".
Proof.
  intros Htext. unfold slugify.
  assert (PyStr.forallb (λ c, negb (PyStr.is_alnum c)) (PyStr.lower text) = false)
    as Hlower.
  { clear -Htext. induction text as [|c s IH]; [done|]. simpl in *.
    rewrite lower_char_alnum. destruct (PyStr.is_alnum c); [done|]. by apply IH. }
  pose proof (alnum_words_not_nil _ Hlower) as Hwords.
  pose proof (alnum_words_spec (λ _, true) (PyStr.lower text)) as Hspec.
  destruct (alnum_words (PyStr.lower text)) as [|w ws]; [done|].
  assert (w ≠ "") as Hw.
  { assert (PyStr.forallb (λ _, true) (PyStr.lower text) = true) as Htrue
      by (clear; induction (PyStr.lower text); [done|simpl; done]).
    specialize (Hspec Htrue). by inversion Hspec as [|? ? (? & _) _]. }
  destruct ws; [done|]. cbn [PyStr.join]. by apply append_not_empty.
Qed.

(** ** Worked examples *)

Example split_example : PyStr.split "/"%char "notes/foo" = ["notes"; "foo"].
Proof. reflexivity. Qed.

Example stem_example :
  stem (of_string "/v/notes/foo.bar.md") = "foo.bar" ∧
  suffix (of_string "/v/notes/foo.bar.md") = ".md" ∧
  stem (of_string "/v/notes/.md") = ".md" ∧
  suffix (of_string "/v/notes/.md") = "".
Proof. repeat split; vm_compute; reflexivity. Qed.

Example to_string_example :
  to_string (of_string "//a/./b//c/") = "//a/b/c" ∧
  to_string (of_string "a//b") = "a/b" ∧
  to_string (of_string "///a") = "/a" ∧
  to_string (of_string "") = ".".
Proof. repeat split; vm_compute; reflexivity. Qed.

Example strftime_example :
  strftime_compact (mk_datetime 2024 1 5 13 7 0) = "20240105130700".
Proof. vm_compute. reflexivity. Qed.

Example slugify_example :
  slugify "My Note--2024 (draft)!" = "my_note_2024_draft" ∧
  slugify "!!!" = "" ∧ slugify "_a_" = "a".
Proof. repeat split; vm_compute; reflexivity. Qed.

Example match_at_example :
  OrgLink.match_at "[[file:notes/bar][Bar]] and" =
    Some (OrgLink.mk_Match "[[file:notes/bar][Bar]]" "notes/bar" (Some "Bar")) ∧
  OrgLink.match_at "[[file:nowhere]]" =
    Some (OrgLink.mk_Match "[[file:nowhere]]" "nowhere" None) ∧
  OrgLink.match_at "[[file:x][y]z" = None ∧
  OrgLink.match_at "[[file:]]" = None.
Proof. repeat split; vm_compute; reflexivity. Qed.

(** * Further properties *)

(** ** The dictionary of notes *)

Section dict_updates.
Context {K V : Type} `{EqDecision K}.
Implicit Types (d : dict K V) (k : K) (v : V).

Lemma get_set d k k' v :
  get k' (set k v d) = if decide (k' = k) then Some v else get k' d.
Proof.
  induction d as [|[k1 v1] d IH]; cbn [set get].
  - by destruct (decide (k' = k)).
  - destruct (decide (k = k1)) as [->|Hk]; cbn [get].
    + by destruct (decide (k' = k1)).
    + rewrite IH. destruct (decide (k' = k1)) as [->|Hk']; [|done].
      by rewrite decide_False by done.
Qed.
End dict_updates.

(** ** The build phase *)

Section build.
Context `{Collaborators}.
Implicit Types (maps : gmap Path Path * dict Path NoteConverter.t).

Lemma discover_path_fs input_dir output_dir maps path fs :
  (discover_path input_dir output_dir maps path fs).1 = fs.
Proof.
  unfold discover_path. destruct maps as [asset_map vault_map].
  destruct (relative_to path input_dir); [|done].
  case_bool_decide; [done|]. case_bool_decide; [|done].
  destruct (PyStr.startswith "_" (stem (parent path))); [done|].
  destruct (PyStr.startswith "_" (stem path)); [done|].
  destruct (PyStr.contains "/config/" (to_string path)); [done|].
  unfold NoteConverter.init, FileSystem.read_text, mbind, M_bind, mret, M_ret.
  by destruct (fs !! path).
Qed.

Lemma discover_fs input_dir output_dir paths maps fs :
  (discover input_dir output_dir paths maps fs).1 = fs.
Proof.
  revert maps. induction paths as [|path paths IH]; intros maps; [done|].
  cbn [discover]. unfold mbind, M_bind.
  pose proof (discover_path_fs input_dir output_dir maps path fs) as Hstep.
  destruct (discover_path _ _ _ _ _) as [fs1 [maps1|e]]; cbn in Hstep; subst.
  - apply IH.
  - done.
Qed.

(** The build phase only reads: whatever the listing holds and whether
    it returns or raises, [load_vault] leaves every file as it was. *)
Theorem load_vault_read_only (input_dir output_dir : Path) (glob : list Path)
    (fs : FS) :
  (load_vault input_dir output_dir glob fs).1 = fs.
Proof.
  unfold load_vault, mbind, M_bind.
  pose proof (discover_fs input_dir output_dir glob (∅, []) fs) as Hfs.
  destruct (discover _ _ _ _ _) as [fs1 [maps|e]]; by cbn in *.
Qed.

Lemma discovered_ok_empty input_dir : discovered_ok input_dir (∅, []).
Proof.
  split_and!; cbn.
  - apply NoDup_nil_2.
  - done.
  - intros ? ?. by rewrite lookup_empty.
Qed.

Lemma discover_path_discovered input_dir output_dir maps path fs fs' maps' :
  discovered_ok input_dir maps →
  discover_path input_dir output_dir maps path fs = (fs', Return maps') →
  discovered_ok input_dir maps'.
Proof.
  intros (Hwf & Hnotes & Hassets). unfold discover_path.
  destruct maps as [asset_map vault_map]. cbn [fst snd] in *.
  destruct (relative_to path input_dir) as [vault_path|] eqn:Hrel; [|done].
  apply relative_to_app in Hrel.
  case_bool_decide as Hasset.
  { intros [= <- <-]. split_and!; [done|done|]. cbn [fst]. intros k v.
    rewrite lookup_insert. case_decide as Hk.
    - intros [= <-]. by subst.
    - apply Hassets. }
  case_bool_decide as Hcontent; [|intros [= <- <-]; by split_and!].
  destruct (PyStr.startswith "_" (stem (parent path)));
    [intros [= <- <-]; by split_and!|].
  destruct (PyStr.startswith "_" (stem path)); [intros [= <- <-]; by split_and!|].
  destruct (PyStr.contains "/config/" (to_string path));
    [intros [= <- <-]; by split_and!|].
  unfold NoteConverter.init, FileSystem.read_text, mbind, M_bind, mret, M_ret.
  destruct (fs !! path) as [text|]; [|done].
  intros [= <- <-]. split_and!; cbn [fst snd]; [by apply set_wf| |done].
  intros k note. rewrite get_set. case_decide as Hk; [|apply Hnotes].
  intros [= <-]. cbn. by subst.
Qed.

Lemma discover_discovered input_dir output_dir paths maps fs fs' maps' :
  discovered_ok input_dir maps →
  discover input_dir output_dir paths maps fs = (fs', Return maps') →
  discovered_ok input_dir maps'.
Proof.
  revert maps fs. induction paths as [|path paths IH]; intros maps fs Hok.
  - by intros [= <- <-].
  - cbn [discover]. unfold mbind, M_bind.
    destruct (discover_path input_dir output_dir maps path fs)
      as [fs1 [maps1|e]] eqn:Hstep; [|done].
    apply IH. by eapply discover_path_discovered.
Qed.

(** The index that discovery builds is a proper dictionary: no key
    occurs twice, every note was read from the file that its key names
    below the input directory and carries the normalized stem of that
    file as identifier, and every asset is the file its key names. *)
Theorem discover_index_keyed (input_dir output_dir : Path) (glob : list Path)
    (fs fs' : FS) maps :
  discover input_dir output_dir glob (∅, []) fs = (fs', Return maps) →
  dict_wf maps.2 ∧
  (∀ vault_path note,
      get vault_path maps.2 = Some note →
      NoteConverter.source note = input_dir ++ vault_path ∧
      NoteConverter.input_dir note = input_dir ∧
      suffix (NoteConverter.source note) ∈ CONTENT_SUFFIXES ∧
      NoteConverter.slug note = slugify (stem (NoteConverter.source note))) ∧
  (∀ vault_path asset_path,
      maps.1 !! vault_path = Some asset_path →
      asset_path = input_dir ++ vault_path ∧
      suffix asset_path ∈ ASSET_SUFFIXES).
Proof.
  intros Hrun.
  exact (discover_discovered _ _ _ _ _ _ _ (discovered_ok_empty input_dir) Hrun).
Qed.

(** A file whose suffix is neither a content nor an asset suffix is
    ignored: it is in neither map. *)
Theorem discover_ignores_other_suffixes (input_dir output_dir : Path)
    (glob : list Path) (fs fs' : FS) maps (path vault_path : Path) :
  discover input_dir output_dir glob (∅, []) fs = (fs', Return maps) →
  suffix path ∉ CONTENT_SUFFIXES →
  suffix path ∉ ASSET_SUFFIXES →
  relative_to path input_dir = Some vault_path →
  get vault_path maps.2 = None ∧ maps.1 !! vault_path = None.
Proof.
  intros Hrun Hcontent Hasset Hrel. apply relative_to_app in Hrel.
  destruct (discover_discovered _ _ _ _ _ _ _ (discovered_ok_empty input_dir) Hrun)
    as (_ & Hnotes & Hassets).
  split.
  - destruct (get vault_path maps.2) as [note|] eqn:Hget; [|done].
    destruct (Hnotes _ _ Hget) as (Hsrc & _ & Hsuf & _).
    rewrite Hsrc, <- Hrel in Hsuf. done.
  - destruct (maps.1 !! vault_path) as [asset_path|] eqn:Hget; [|done].
    destruct (Hassets _ _ Hget) as (-> & Hsuf). rewrite <- Hrel in Hsuf. done.
Qed.
End build.

Lemma discover_index_keyed_witness :
  dict_wf Sample.discovered.2 ∧
  (∀ vault_path note,
      get vault_path Sample.discovered.2 = Some note →
      NoteConverter.source note = Sample.vault_dir ++ vault_path ∧
      NoteConverter.input_dir note = Sample.vault_dir ∧
      suffix (NoteConverter.source note) ∈ CONTENT_SUFFIXES ∧
      NoteConverter.slug note = slugify (stem (NoteConverter.source note))) ∧
  (∀ vault_path asset_path,
      Sample.discovered.1 !! vault_path = Some asset_path →
      asset_path = Sample.vault_dir ++ vault_path ∧
      suffix asset_path ∈ ASSET_SUFFIXES).
Proof.
  exact (discover_index_keyed (H:=Sample.collaborators) Sample.vault_dir
           Sample.out_dir Sample.glob Sample.tree Sample.tree Sample.discovered
           sample_discover_run).
Defined.

Lemma discover_ignores_other_suffixes_witness :
  get ["notes"; "data.csv"] Sample.discovered.2 = None ∧
  Sample.discovered.1 !! ["notes"; "data.csv"] = None.
Proof.
  apply (discover_ignores_other_suffixes (H:=Sample.collaborators)
           Sample.vault_dir Sample.out_dir Sample.glob Sample.tree Sample.tree
           Sample.discovered ["/"; "vault"; "notes"; "data.csv"]
           ["notes"; "data.csv"] sample_discover_run).
  - vm_compute. intros Hin. apply list_elem_of_singleton in Hin. discriminate.
  - vm_compute. intros Hin.
    apply elem_of_cons in Hin as [Hin|Hin]; [discriminate|].
    apply list_elem_of_singleton in Hin. discriminate.
  - vm_compute. reflexivity.
Defined.

Section completeness.
Context `{Collaborators}.
Implicit Types (maps : gmap Path Path * dict Path NoteConverter.t).

Lemma discover_path_keeps_asset input_dir output_dir maps path fs fs' maps'
    (asset_path vault_path : Path) :
  asset_path = input_dir ++ vault_path →
  maps.1 !! vault_path = Some asset_path →
  discover_path input_dir output_dir maps path fs = (fs', Return maps') →
  maps'.1 !! vault_path = Some asset_path.
Proof.
  intros Hkey Hin. unfold discover_path.
  destruct maps as [asset_map vault_map]. cbn [fst snd] in *.
  destruct (relative_to path input_dir) as [vault_path'|] eqn:Hrel; [|done].
  apply relative_to_app in Hrel.
  case_bool_decide as Hasset.
  { intros [= <- <-]. cbn [fst]. rewrite lookup_insert.
    case_decide as Hk; [|done]. subst. done. }
  case_bool_decide; [|by intros [= <- <-]].
  destruct (PyStr.startswith "_" (stem (parent path))); [by intros [= <- <-]|].
  destruct (PyStr.startswith "_" (stem path)); [by intros [= <- <-]|].
  destruct (PyStr.contains "/config/" (to_string path)); [by intros [= <- <-]|].
  unfold NoteConverter.init, FileSystem.read_text, mbind, M_bind, mret, M_ret.
  destruct (fs !! path); [|done]. by intros [= <- <-].
Qed.

Lemma discover_keeps_asset input_dir output_dir paths maps fs fs' maps'
    (asset_path vault_path : Path) :
  asset_path = input_dir ++ vault_path →
  maps.1 !! vault_path = Some asset_path →
  discover input_dir output_dir paths maps fs = (fs', Return maps') →
  maps'.1 !! vault_path = Some asset_path.
Proof.
  intros Hkey. revert maps fs. induction paths as [|path paths IH]; intros maps fs Hin.
  - by intros [= <- <-].
  - cbn [discover]. unfold mbind, M_bind.
    destruct (discover_path input_dir output_dir maps path fs)
      as [fs1 [maps1|e]] eqn:Hstep; [|done].
    apply IH. by eapply discover_path_keeps_asset.
Qed.

(** Every listed file with an asset suffix is indexed under its path
    relative to the input directory, whatever its directory or its name:
    the exclusion tests are not applied to assets. *)
Theorem discover_indexes_assets (input_dir output_dir : Path) (glob : list Path)
    (fs fs' : FS) maps0 maps (path vault_path : Path) :
  discover input_dir output_dir glob maps0 fs = (fs', Return maps) →
  path ∈ glob →
  suffix path ∈ ASSET_SUFFIXES →
  relative_to path input_dir = Some vault_path →
  maps.1 !! vault_path = Some path.
Proof.
  intros Hrun Hin Hsuffix Hrel. revert maps0 fs Hrun.
  induction glob as [|path0 glob IH]; intros maps0 fs;
    [by apply elem_of_nil in Hin|].
  cbn [discover]. unfold mbind, M_bind.
  destruct (discover_path input_dir output_dir maps0 path0 fs)
    as [fs1 [maps1|e]] eqn:Hstep; [|done].
  apply elem_of_cons in Hin as [<-|Hin]; [|by apply IH].
  apply discover_keeps_asset; [by apply relative_to_app|].
  unfold discover_path in Hstep. destruct maps0 as [asset_map vault_map].
  rewrite Hrel, bool_decide_eq_true_2 in Hstep by done.
  injection Hstep as <- <-. cbn. by rewrite lookup_insert_eq.
Qed.

Lemma discover_path_keeps_note input_dir output_dir maps path0 fs fs' maps'
    (path vault_path : Path) (text : string) :
  path = input_dir ++ vault_path →
  fs !! path = Some text →
  has_note maps vault_path path text →
  discover_path input_dir output_dir maps path0 fs = (fs', Return maps') →
  has_note maps' vault_path path text.
Proof.
  intros Hkey Htext Hnote. unfold discover_path.
  destruct maps as [asset_map vault_map]. cbn [fst snd] in *.
  destruct (relative_to path0 input_dir) as [vault_path'|] eqn:Hrel; [|done].
  apply relative_to_app in Hrel.
  case_bool_decide; [by intros [= <- <-]|].
  case_bool_decide; [|by intros [= <- <-]].
  destruct (PyStr.startswith "_" (stem (parent path0))); [by intros [= <- <-]|].
  destruct (PyStr.startswith "_" (stem path0)); [by intros [= <- <-]|].
  destruct (PyStr.contains "/config/" (to_string path0)); [by intros [= <- <-]|].
  unfold NoteConverter.init, FileSystem.read_text, mbind, M_bind, mret, M_ret.
  destruct (fs !! path0) as [text0|] eqn:Htext0; [|done].
  intros [= <- <-]. unfold has_note. cbn [snd]. setoid_rewrite get_set.
  destruct (decide (vault_path = vault_path')) as [<-|Hne]; [|done].
  assert (path0 = path) as -> by congruence.
  assert (text0 = text) as -> by congruence.
  by eexists.
Qed.

Lemma discover_keeps_note input_dir output_dir paths maps fs fs' maps'
    (path vault_path : Path) (text : string) :
  path = input_dir ++ vault_path →
  fs !! path = Some text →
  has_note maps vault_path path text →
  discover input_dir output_dir paths maps fs = (fs', Return maps') →
  has_note maps' vault_path path text.
Proof.
  intros Hkey Htext. revert maps fs Htext.
  induction paths as [|path0 paths IH]; intros maps fs Htext Hnote.
  - by intros [= <- <-].
  - cbn [discover]. unfold mbind, M_bind.
    pose proof (discover_path_fs input_dir output_dir maps path0 fs) as Hfs.
    destruct (discover_path input_dir output_dir maps path0 fs)
      as [fs1 [maps1|e]] eqn:Hstep; [|done].
    cbn in Hfs. subst fs1. apply IH; [done|].
    by eapply discover_path_keeps_note.
Qed.

(** Every listed content file that passes the three exclusion tests is
    indexed under its path relative to the input directory, as the note
    built from the text of that file. *)
Theorem discover_indexes_content (input_dir output_dir : Path) (glob : list Path)
    (fs fs' : FS) maps0 maps (path vault_path : Path) (text : string) :
  discover input_dir output_dir glob maps0 fs = (fs', Return maps) →
  path ∈ glob →
  suffix path ∈ CONTENT_SUFFIXES →
  excluded path = false →
  relative_to path input_dir = Some vault_path →
  fs !! path = Some text →
  ∃ note,
    get vault_path maps.2 = Some note ∧
    NoteConverter.source note = path ∧
    NoteConverter.md_note note = frontmatter_loads text ∧
    NoteConverter.slug note = slugify (stem path).
Proof.
  intros Hrun Hin Hsuffix Hex Hrel Htext. revert maps0 fs Hrun Htext.
  induction glob as [|path0 glob IH]; intros maps0 fs;
    [by apply elem_of_nil in Hin|].
  cbn [discover]. unfold mbind, M_bind.
  pose proof (discover_path_fs input_dir output_dir maps0 path0 fs) as Hfs.
  destruct (discover_path input_dir output_dir maps0 path0 fs)
    as [fs1 [maps1|e]] eqn:Hstep; [|done].
  cbn in Hfs. subst fs1. intros Hrun Htext.
  apply elem_of_cons in Hin as [<-|Hin]; [|by eapply IH].
  eapply (discover_keeps_note _ _ _ maps1); [by apply relative_to_app|done| |done].
  unfold discover_path in Hstep. destruct maps0 as [asset_map vault_map].
  rewrite Hrel in Hstep.
  assert (suffix path ∉ ASSET_SUFFIXES) as Hnot_asset.
  { unfold CONTENT_SUFFIXES in Hsuffix. apply list_elem_of_singleton in Hsuffix.
    rewrite Hsuffix. unfold ASSET_SUFFIXES.
    intros [?|[?|?%elem_of_nil]%elem_of_cons]%elem_of_cons; done. }
  rewrite bool_decide_eq_false_2, bool_decide_eq_true_2 in Hstep by done.
  unfold excluded in Hex. rewrite <- startswith_stem_name in Hex.
  apply orb_false_iff in Hex as [[Hdir Hstem]%orb_false_iff Hconfig].
  rewrite Hdir, Hstem, Hconfig in Hstep.
  unfold NoteConverter.init, FileSystem.read_text, mbind, M_bind, mret, M_ret in Hstep.
  rewrite Htext in Hstep. injection Hstep as <-.
  unfold has_note. cbn [snd]. rewrite get_set, decide_True by done. by eexists.
Qed.
End completeness.

Lemma discover_indexes_assets_witness :
  Sample.discovered.1 !! ["_private"; "pic.png"] =
    Some ["/"; "vault"; "_private"; "pic.png"].
Proof.
  apply (discover_indexes_assets (H:=Sample.collaborators) Sample.vault_dir
           Sample.out_dir Sample.glob Sample.tree Sample.tree (∅, [])
           Sample.discovered ["/"; "vault"; "_private"; "pic.png"]
           ["_private"; "pic.png"] sample_discover_run).
  - vm_compute. do 4 right. left.
  - vm_compute. right. left.
  - vm_compute. reflexivity.
Defined.

Lemma discover_indexes_content_witness :
  ∃ note,
    get ["notes"; "foo.md"] Sample.discovered.2 = Some note ∧
    NoteConverter.source note = ["/"; "vault"; "notes"; "foo.md"] ∧
    NoteConverter.md_note note =
      frontmatter_loads (Collaborators:=Sample.collaborators) "created: 2024-01-05" ∧
    NoteConverter.slug note = "foo".
Proof.
  apply (discover_indexes_content (H:=Sample.collaborators) Sample.vault_dir
           Sample.out_dir Sample.glob Sample.tree Sample.tree (∅, [])
           Sample.discovered ["/"; "vault"; "notes"; "foo.md"]
           ["notes"; "foo.md"] "created: 2024-01-05" sample_discover_run).
  - vm_compute. left.
  - vm_compute. left.
  - vm_compute. reflexivity.
  - vm_compute. reflexivity.
  - vm_compute. reflexivity.
Defined.

(** ** What lookups and resolutions can end in *)

Section resolution_outcomes.
Import VaultConverter.
Implicit Types (self : VaultConverter.t) (path : Path) (fs : FS).

(** [from_stem] read backwards: it returns nothing only when no key has
    the stem, it returns a note only when that note sits under the one
    key with the stem, and the only exception it raises is the
    [ValueError] for two keys with the stem; the subscript
    [self.vault_map[matches[0]]] never fails. *)
Theorem from_stem_inversion self (stem_ : string) :
  dict_wf (vault_map self) →
  (from_stem self stem_ = Return None → ∀ path, ¬ stem_match self stem_ path) ∧
  (∀ note,
      from_stem self stem_ = Return (Some note) →
      ∃ path, get path (vault_map self) = Some note ∧ stem path = stem_ ∧
              ∀ path', stem_match self stem_ path' → path' = path) ∧
  (∀ e,
      from_stem self stem_ = Raise e →
      e = ValueError "Too many stem matches found" ∧
      ∃ path1 path2, path1 ≠ path2 ∧
        stem_match self stem_ path1 ∧ stem_match self stem_ path2).
Proof.
  intros Hwf.
  assert (NoDup (matches self stem_)) as Hnd by by apply NoDup_filter.
  pose proof (elem_of_matches self stem_) as Hmatch.
  unfold from_stem. destruct (matches self stem_) as [|p [|p' more]] eqn:Hm.
  - split_and!; [|done|done].
    intros _ path Hp%Hmatch. by apply elem_of_nil in Hp.
  - cbn [length]. rewrite bool_decide_eq_false_2 by lia.
    assert (stem_match self stem_ p) as Hp by (apply Hmatch; by left).
    destruct (proj2 (get_is_Some (vault_map self) p) (proj1 Hp)) as [note Hget].
    rewrite Hget. split_and!; [done| |done].
    intros note' [= <-]. exists p. split_and!; [done|apply Hp|].
    intros path' Hp'%Hmatch. by apply list_elem_of_singleton in Hp'.
  - cbn [length]. rewrite bool_decide_eq_true_2 by lia.
    split_and!; [done|done|]. intros e [= <-]. split; [done|].
    exists p, p'. split_and!.
    + intros ->. apply NoDup_cons in Hnd as [Hp _]. apply Hp. by left.
    + apply Hmatch. by left.
    + apply Hmatch. right. by left.
Qed.

Lemma from_stem_inversion_witness :
  ∃ path,
    get path (vault_map Sample.vault) = Some Sample.foo ∧ stem path = "foo" ∧
    ∀ path', stem_match Sample.vault "foo" path' → path' = path.
Proof.
  apply (proj1 (proj2 (from_stem_inversion Sample.vault "foo" sample_vault_wf))).
  vm_compute. reflexivity.
Defined.

(** Link resolution never changes a file that exists: the one path it
    may write is the copy of the asset below the output directory, and
    only when no file is there. *)
Theorem ensure_link_keeps_files self (requested : string)
    (link_text : option string) fs :
  let fs' := (ensure_link self requested link_text fs).1 in
  (∀ path c, fs !! path = Some c → fs' !! path = Some c) ∧
  (∀ path, fs' !! path ≠ fs !! path →
           path = joinpath (output_dir self) (of_string requested) ∧
           fs !! path = None).
Proof.
  cbn zeta.
  destruct (from_stem self (split_last requested)) as [[note|]|e] eqn:Hstem.
  - rewrite (ensure_link_found _ _ _ note) by done. by cbn.
  - rewrite ensure_link_not_found by done.
    destruct (asset_map self !! of_string requested) as [asset_path|]; [|by cbn].
    cbn zeta.
    destruct (fs !! joinpath (output_dir self) (of_string requested)) eqn:Hout;
      [by cbn|].
    destruct (fs !! asset_path) eqn:Hsrc; [|by cbn]. cbn [fst]. split.
    + intros path c Hpath. rewrite lookup_insert_ne; [done|]. congruence.
    + intros path Hdiff.
      destruct (decide (joinpath (output_dir self) (of_string requested) = path))
        as [<-|Hne]; [done|].
      by rewrite lookup_insert_ne in Hdiff.
  - rewrite (ensure_link_raise _ _ _ e) by done. by cbn.
Qed.
End resolution_outcomes.

(** ** The link grammar *)

Lemma until_bracket_spec (s w rest : string) :
  OrgLink.until_bracket s = Some (w, rest) →
  s = w +:+ "]" +:+ rest ∧
  PyStr.forallb (λ c, negb (bool_decide (c = "]"%char))) w = true.
Proof.
  revert w. induction s as [|c s IH]; intros w; [done|].
  cbn [OrgLink.until_bracket]. destruct (decide (c = "]"%char)) as [->|Hc].
  - by intros [= <- <-].
  - destruct (OrgLink.until_bracket s) as [[w' rest']|]; [|done]. cbn.
    intros [= <- <-]. destruct (IH w' eq_refl) as [-> Hw]. split; [done|].
    cbn. by rewrite Hw, bool_decide_eq_false_2.
Qed.

Lemma until_bracket_complete (w rest : string) :
  PyStr.forallb (λ c, negb (bool_decide (c = "]"%char))) w = true →
  OrgLink.until_bracket (w +:+ "]" +:+ rest) = Some (w, rest).
Proof.
  induction w as [|c w IH]; [done|]. cbn [PyStr.forallb].
  intros [Hc Hw]%andb_true_iff. rewrite append_cons. cbn [OrgLink.until_bracket].
  apply negb_true_iff, bool_decide_eq_false in Hc.
  rewrite decide_False by done. by rewrite IH.
Qed.

Lemma group_bracket_spec (s w rest : string) :
  OrgLink.group_bracket s = Some (w, rest) →
  s = w +:+ "]" +:+ rest ∧ w ≠ "" ∧
  PyStr.forallb (λ c, negb (bool_decide (c = "]"%char))) w = true.
Proof.
  intros Hgroup. pose proof (group_bracket_not_empty _ _ _ Hgroup) as Hne.
  unfold OrgLink.group_bracket in Hgroup.
  destruct (OrgLink.until_bracket s) as [[w' rest']|] eqn:Huntil; [|done].
  cbn in Hgroup. case_bool_decide; [done|]. injection Hgroup as <- <-.
  by destruct (until_bracket_spec _ _ _ Huntil).
Qed.

Lemma group_bracket_complete (w rest : string) :
  w ≠ "" →
  PyStr.forallb (λ c, negb (bool_decide (c = "]"%char))) w = true →
  OrgLink.group_bracket (w +:+ "]" +:+ rest) = Some (w, rest).
Proof.
  intros Hne Hw. unfold OrgLink.group_bracket.
  rewrite until_bracket_complete by done. cbn. by rewrite bool_decide_eq_false_2.
Qed.

Lemma startswith_spec (p s : string) :
  PyStr.startswith p s = true → s = p +:+ PyStr.drop (String.length p) s.
Proof.
  revert s. induction p as [|a p IH]; intros s; [by destruct s|].
  destruct s as [|b s]; [done|]. cbn [PyStr.startswith].
  case_decide as Hab; [|done]. subst. intros Hp.
  rewrite append_cons. cbn. by rewrite <- IH.
Qed.

(** What a match is made of: the text starts with the matched text,
    which is [[[file:], the link, and either []]] or [][], the title
    and []]]; the link and the title are not empty and hold no []]. *)
Theorem match_at_sound (s : string) (m : OrgLink.Match) :
  OrgLink.match_at s = Some m →
  (∃ rest, s = OrgLink.group0 m +:+ rest) ∧
  OrgLink.group0 m =
    "[[file:" +:+ OrgLink.link m +:+
    match OrgLink.title m with
    | Some title => "][" +:+ title +:+ "]]"
    | None => "]]"
    end ∧
  OrgLink.link m ≠ "" ∧
  PyStr.forallb (λ c, negb (bool_decide (c = "]"%char))) (OrgLink.link m) = true ∧
  ∀ title, OrgLink.title m = Some title →
    title ≠ "" ∧
    PyStr.forallb (λ c, negb (bool_decide (c = "]"%char))) title = true.
Proof.
  unfold OrgLink.match_at.
  destruct (PyStr.startswith "[[file:" s) eqn:Hstart; [|done].
  apply startswith_spec in Hstart. cbn [String.length] in Hstart.
  destruct (OrgLink.group_bracket (PyStr.drop 7 s)) as [[link rest]|] eqn:Hlink;
    [|done].
  apply group_bracket_spec in Hlink as (Hs & Hne & Hlink). cbn.
  destruct rest as [|c rest]; [done|].
  destruct (Ascii.ascii_dec c "["%char) as [->|Hc].
  - destruct (OrgLink.group_bracket rest) as [[title rest']|] eqn:Htitle; [|done].
    apply group_bracket_spec in Htitle as (Hr & Hne' & Htitle).
    destruct rest' as [|c' rest']; [done|].
    destruct (Ascii.ascii_dec c' "]"%char) as [->|Hc'].
    + intros [= <-]. cbn. split_and!; [|done|done|done|].
      * exists rest'. rewrite Hstart, Hs, Hr.
        rewrite !append_assoc. reflexivity.
      * by intros ? [= <-].
    + by destruct c' as [[] [] [] [] [] [] [] []].
  - destruct (Ascii.ascii_dec c "]"%char) as [->|Hc'].
    + intros [= <-]. cbn. split_and!; [|done|done|done|done].
      exists rest. rewrite Hstart, Hs. rewrite !append_assoc. reflexivity.
    + by destruct c as [[] [] [] [] [] [] [] []].
Qed.

Lemma match_at_sound_witness :
  (∃ rest, "[[file:notes/bar][Bar]] and" = "[[file:notes/bar][Bar]]" +:+ rest) ∧
  "[[file:notes/bar][Bar]]" = "[[file:" +:+ "notes/bar" +:+ "][" +:+ "Bar" +:+ "]]".
Proof.
  destruct (match_at_sound "[[file:notes/bar][Bar]] and"
              (OrgLink.mk_Match "[[file:notes/bar][Bar]]" "notes/bar" (Some "Bar")))
    as (Hprefix & Hgroup & _).
  - vm_compute. reflexivity.
  - split; [exact Hprefix|exact Hgroup].
Defined.

(** Every link that is written in the grammar is recognized with its
    parts, whatever follows it. *)
Theorem match_at_complete (link rest : string) (title : option string) :
  link ≠ "" →
  PyStr.forallb (λ c, negb (bool_decide (c = "]"%char))) link = true →
  (∀ text, title = Some text →
     text ≠ "" ∧
     PyStr.forallb (λ c, negb (bool_decide (c = "]"%char))) text = true) →
  let matched :=
    "[[file:" +:+ link +:+
    match title with
    | Some text => "][" +:+ text +:+ "]]"
    | None => "]]"
    end in
  OrgLink.match_at (matched +:+ rest) =
    Some (OrgLink.mk_Match matched link title).
Proof.
  intros Hne Hlink Htitle matched. unfold OrgLink.match_at.
  assert (matched +:+ rest =
            "[[file:" +:+ link +:+ "]" +:+
            match title with
            | Some text => "[" +:+ text +:+ "]" +:+ "]" +:+ rest
            | None => "]" +:+ rest
            end) as ->.
  { unfold matched. destruct title; rewrite !append_assoc; reflexivity. }
  change (PyStr.startswith "[[file:" ("[[file:" +:+ ?x)) with true. cbn match.
  change (PyStr.drop 7 ("[[file:" +:+ ?x)) with x.
  rewrite group_bracket_complete by done. cbn.
  destruct title as [text|].
  - destruct (Htitle text eq_refl) as [Hne' Htext].
    change ("[" +:+ ?x) with (String "["%char x). cbn match.
    rewrite group_bracket_complete by done.
    change ("]" +:+ rest) with (String "]"%char rest). cbn match.
    done.
  - change ("]" +:+ rest) with (String "]"%char rest). cbn match. done.
Qed.

Lemma match_at_complete_witness :
  OrgLink.match_at ("[[file:images/pic.png]]" +:+ " and more") =
    Some (OrgLink.mk_Match "[[file:images/pic.png]]" "images/pic.png" None).
Proof.
  apply (match_at_complete "images/pic.png" " and more" None).
  - discriminate.
  - vm_compute. reflexivity.
  - intros text Htext. discriminate.
Defined.

(** ** The rewriting pass *)

Section rewriting.
Implicit Types (repl : OrgLink.Match → M string) (fs : FS).

Lemma match_at_startswith (s : string) (m : OrgLink.Match) :
  OrgLink.match_at s = Some m → PyStr.startswith "[[file:" s = true.
Proof. unfold OrgLink.match_at. by destruct (PyStr.startswith "[[file:" s). Qed.

(** A text in which [[[file:] does not occur is returned as it is, and
    the callback is never called. *)
Theorem sub_without_links repl (s : string) fs :
  PyStr.contains "[[file:" s = false →
  OrgLink.sub repl s fs = (fs, Return s).
Proof.
  unfold OrgLink.sub. induction s as [|c s IH]; [done|].
  cbn [PyStr.contains]. intros [Hstart Hrest]%orb_false_iff.
  cbn [OrgLink.sub_from].
  destruct (OrgLink.match_at (String c s)) as [m|] eqn:Hm.
  - apply match_at_startswith in Hm. congruence.
  - unfold mbind, M_bind. by rewrite IH.
Qed.

Lemma sub_without_links_witness :
  OrgLink.sub (find_link Sample.vault) "No link, only [[id:foo][Foo]]." Sample.fs =
    (Sample.fs, Return "No link, only [[id:foo][Foo]].").
Proof.
  apply (sub_without_links (find_link Sample.vault)
           "No link, only [[id:foo][Foo]]." Sample.fs).
  vm_compute. reflexivity.
Defined.

Lemma match_at_group0_not_empty (s : string) (m : OrgLink.Match) :
  OrgLink.match_at s = Some m → OrgLink.group0 m ≠ "".
Proof.
  unfold OrgLink.match_at. destruct (PyStr.startswith _ s); [|done].
  destruct (OrgLink.group_bracket (PyStr.drop 7 s)) as [[link rest]|]; [|done]. cbn.
  destruct rest as [|c rest]; [done|].
  destruct (Ascii.ascii_dec c "["%char) as [->|Hc].
  - destruct (OrgLink.group_bracket rest) as [[title rest']|]; [|done].
    destruct rest' as [|c' rest']; [done|].
    destruct (Ascii.ascii_dec c' "]"%char) as [->|Hc'].
    + by intros [= <-].
    + by destruct c' as [[] [] [] [] [] [] [] []].
  - destruct (Ascii.ascii_dec c "]"%char) as [->|Hc'].
    + by intros [= <-].
    + by destruct c as [[] [] [] [] [] [] [] []].
Qed.

Lemma sub_from_skip repl (a b : string) fs :
  OrgLink.sub_from repl (String.length a) (a +:+ b) fs = OrgLink.sub_from repl 0 b fs.
Proof.
  induction a as [|c a IH]; [by destruct b|].
  rewrite append_cons. cbn [String.length OrgLink.sub_from]. apply IH.
Qed.

(** One pass from the left: at a match the callback gives the
    replacement, which is not scanned again, and the scan goes on right
    after the matched text. *)
Theorem sub_at_match repl (s rest : string) (m : OrgLink.Match) fs :
  OrgLink.match_at s = Some m →
  s = OrgLink.group0 m +:+ rest →
  OrgLink.sub repl s fs =
    (new ← repl m; tail ← OrgLink.sub repl rest; mret (new +:+ tail)) fs.
Proof.
  intros Hm Hs. unfold OrgLink.sub.
  pose proof (match_at_group0_not_empty _ _ Hm) as Hgroup.
  destruct (OrgLink.group0 m) as [|c g] eqn:Hg; [done|].
  rewrite append_cons in Hs. subst s. cbn [OrgLink.sub_from]. rewrite Hm, Hg.
  replace (String.length (String c g) - 1) with (String.length g)
    by (cbn [String.length]; lia).
  unfold mbind, M_bind. destruct (repl m fs) as [fs1 [new|e]]; [|done].
  by rewrite sub_from_skip.
Qed.

Lemma sub_at_match_witness :
  OrgLink.sub (find_link Sample.vault) "[[file:notes/bar][Bar]] and [[file:x]]"
    Sample.fs =
  (new ← find_link Sample.vault
           (OrgLink.mk_Match "[[file:notes/bar][Bar]]" "notes/bar" (Some "Bar"));
   tail ← OrgLink.sub (find_link Sample.vault) " and [[file:x]]";
   mret (new +:+ tail)) Sample.fs.
Proof.
  apply (sub_at_match (find_link Sample.vault)
           "[[file:notes/bar][Bar]] and [[file:x]]" " and [[file:x]]"
           (OrgLink.mk_Match "[[file:notes/bar][Bar]]" "notes/bar" (Some "Bar"))
           Sample.fs).
  - vm_compute. reflexivity.
  - reflexivity.
Defined.

(** A character that does not open a link is copied. *)
Lemma sub_from_plain repl (c : ascii) (s : string) fs :
  OrgLink.match_at (String c s) = None →
  OrgLink.sub repl (String c s) fs =
    (tail ← OrgLink.sub repl s; mret (String c tail)) fs.
Proof. intros Hm. unfold OrgLink.sub. cbn [OrgLink.sub_from]. by rewrite Hm. Qed.

Lemma sub_from_frame repl (P : Path → Prop) skip (s : string) fs :
  (∀ m fs0 path, P path → (repl m fs0).1 !! path = fs0 !! path) →
  ∀ path, P path → (OrgLink.sub_from repl skip s fs).1 !! path = fs !! path.
Proof.
  intros Hrepl path Hpath. revert skip fs.
  induction s as [|c s IH]; intros skip fs; [done|].
  cbn [OrgLink.sub_from]. destruct skip as [|skip]; [|apply IH].
  destruct (OrgLink.match_at (String c s)) as [m|].
  - unfold mbind, M_bind. pose proof (Hrepl m fs path Hpath) as Hm.
    destruct (repl m fs) as [fs1 [new|e]]; [|done].
    pose proof (IH (String.length (OrgLink.group0 m) - 1) fs1) as Hs.
    destruct (OrgLink.sub_from _ _ _ _) as [fs2 [tail|e]]; cbn in *; congruence.
  - unfold mbind, M_bind. pose proof (IH 0 fs) as Hs.
    by destruct (OrgLink.sub_from _ _ _ _) as [fs2 [tail|e]].
Qed.
End rewriting.

(** ** The pandoc cache *)

Section cache_facts.
Import OrgCache.
Variable convert_text : string → string.
Implicit Types (self : NoteConverter.t) (fs : TFS) (now : nat).

Lemma cache_is_newer_fs (file : Path) self fs :
  (cache_is_newer file self fs).1 = fs.
Proof.
  unfold cache_is_newer, is_file, st_mtime, mbind, TM_bind, mret, TM_ret.
  destruct (bool_decide _); [|done].
  destruct (fs !! file); [|done]. by destruct (fs !! NoteConverter.source self).
Qed.

Lemma generate_unfold now self (memo : string) fs :
  _generate_org_content convert_text now self memo fs =
  match NoteConverter.org_path self with
  | Raise e => (fs, Raise e)
  | Return name =>
      match fs !! cache_file name with
      | None =>
          (<[cache_file name := (memo, now)]> fs,
           Return (convert_text (content (NoteConverter.md_note self))))
      | Some cached =>
          match fs !! NoteConverter.source self with
          | None => (fs, Raise (FileNotFoundError (NoteConverter.source self)))
          | Some source =>
              if bool_decide (source.2 < cached.2) then (fs, Return cached.1)
              else (<[cache_file name := (memo, now)]> fs,
                    Return (convert_text (content (NoteConverter.md_note self))))
          end
      end
  end.
Proof.
  unfold _generate_org_content, lift_outcome, mbind, TM_bind.
  destruct (NoteConverter.org_path self) as [name|]; [|done].
  unfold cache_is_newer, is_file, st_mtime, read_text, write_text, mbind, TM_bind,
    mret, TM_ret.
  destruct (fs !! cache_file name) as [cached|] eqn:Hcache.
  - rewrite bool_decide_eq_true_2 by eauto. rewrite Hcache.
    destruct (fs !! NoteConverter.source self) as [source|]; [|done].
    case_bool_decide; [by rewrite Hcache|done].
  - by rewrite bool_decide_eq_false_2 by by intros [? ?].
Qed.

(** The cache never receives the conversion: the only file that
    [org_content] can change is the cache file of the note, and what it
    writes there is the empty string, the value that [_org_content] has
    whenever the text is generated. *)
Theorem org_content_writes_empty now self (memo : string) fs (path : Path) :
  let fs' := (org_content convert_text now self memo fs).1 in
  fs' !! path ≠ fs !! path →
  fs' !! path = Some ("", now) ∧
  ∃ name, NoteConverter.org_path self = Return name ∧ path = cache_file name.
Proof.
  cbn zeta. unfold org_content. case_bool_decide as Hmemo; [|done]. subst memo.
  unfold mbind, TM_bind. rewrite generate_unfold.
  destruct (NoteConverter.org_path self) as [name|]; [|done].
  assert (∀ fs0 : TFS, <[cache_file name := ("", now)]> fs0 !! path ≠ fs !! path →
            fs0 = fs →
            <[cache_file name := ("", now)]> fs0 !! path = Some ("", now) ∧
            ∃ name0, Return name = Return name0 ∧ path = cache_file name0) as Hwrite.
  { intros fs0 Hdiff ->. destruct (decide (cache_file name = path)) as [<-|Hne].
    - rewrite lookup_insert_eq. eauto.
    - by rewrite lookup_insert_ne in Hdiff. }
  destruct (fs !! cache_file name) as [cached|].
  - destruct (fs !! NoteConverter.source self) as [source|]; [|done].
    case_bool_decide; [done|]. cbn. intros Hdiff. by apply Hwrite.
  - cbn. intros Hdiff. by apply Hwrite.
Qed.

(** A cache file newer than the source is returned as it is: nothing
    is converted and nothing is written, whatever the note holds. *)
Theorem org_content_cache_hit now self fs (name cached : string)
    (cache_mtime : nat) (source : string * nat) :
  NoteConverter.org_path self = Return name →
  fs !! cache_file name = Some (cached, cache_mtime) →
  fs !! NoteConverter.source self = Some source →
  source.2 < cache_mtime →
  org_content convert_text now self "" fs = (fs, Return (cached, cached)).
Proof.
  intros Hname Hcache Hsource Hnewer. unfold org_content.
  rewrite bool_decide_eq_true_2 by done. unfold mbind, TM_bind.
  rewrite generate_unfold, Hname, Hcache, Hsource. cbn [snd fst].
  by rewrite bool_decide_eq_true_2.
Qed.

(** The second run loses the body: after the text of a note was
    generated without a cache file, at a time later than the last change
    of its source, every later call on a new object for that note reads
    the cache and returns the empty string. *)
Theorem org_content_second_run now self fs (name : string) (source : string * nat) :
  NoteConverter.org_path self = Return name →
  fs !! cache_file name = None →
  fs !! NoteConverter.source self = Some source →
  source.2 < now →
  ∃ fs1,
    org_content convert_text now self "" fs =
      (fs1, Return (convert_text (content (NoteConverter.md_note self)),
                    convert_text (content (NoteConverter.md_note self)))) ∧
    ∀ now', org_content convert_text now' self "" fs1 = (fs1, Return ("", "")).
Proof.
  intros Hname Hcache Hsource Hnewer.
  assert (NoteConverter.source self ≠ cache_file name) as Hne by congruence.
  exists (<[cache_file name := ("", now)]> fs). split.
  - unfold org_content. rewrite bool_decide_eq_true_2 by done.
    unfold mbind, TM_bind. by rewrite generate_unfold, Hname, Hcache.
  - intros now'. unfold org_content. rewrite bool_decide_eq_true_2 by done.
    unfold mbind, TM_bind.
    rewrite generate_unfold, Hname, lookup_insert_eq, lookup_insert_ne, Hsource
      by done.
    cbn [snd fst]. by rewrite bool_decide_eq_true_2.
Qed.
End cache_facts.

Lemma org_content_writes_empty_witness :
  (OrgCache.org_content Sample2.convert_text 5 Sample.foo "" Sample2.cache_fs).1
    !! OrgCache.cache_file "20240105130700-foo.org" = Some ("", 5).
Proof.
  apply (org_content_writes_empty Sample2.convert_text 5 Sample.foo ""
           Sample2.cache_fs (OrgCache.cache_file "20240105130700-foo.org")).
  assert ((OrgCache.org_content Sample2.convert_text 5 Sample.foo "" Sample2.cache_fs).1
            !! OrgCache.cache_file "20240105130700-foo.org" = Some ("", 5)) as ->
    by (vm_compute; reflexivity).
  assert (Sample2.cache_fs !! OrgCache.cache_file "20240105130700-foo.org" = None) as ->
    by (vm_compute; reflexivity).
  discriminate.
Defined.

Lemma org_content_cache_hit_witness :
  OrgCache.org_content Sample2.convert_text 9 Sample.foo ""
    (<[OrgCache.cache_file "20240105130700-foo.org" := ("cached text", 4)]>
       Sample2.cache_fs) =
  (<[OrgCache.cache_file "20240105130700-foo.org" := ("cached text", 4)]>
     Sample2.cache_fs, Return ("cached text", "cached text")).
Proof.
  apply (org_content_cache_hit Sample2.convert_text 9 Sample.foo _
           "20240105130700-foo.org" "cached text" 4 ("See [[notes/bar|Bar]].", 3)).
  - vm_compute. reflexivity.
  - apply lookup_insert_eq.
  - vm_compute. reflexivity.
  - cbn. lia.
Defined.

Lemma org_content_second_run_witness :
  ∃ fs1,
    OrgCache.org_content Sample2.convert_text 5 Sample.foo "" Sample2.cache_fs =
      (fs1, Return ("org:See [[file:notes/bar][Bar]].",
                    "org:See [[file:notes/bar][Bar]].")) ∧
    ∀ now', OrgCache.org_content Sample2.convert_text now' Sample.foo "" fs1 =
              (fs1, Return ("", "")).
Proof.
  apply (org_content_second_run Sample2.convert_text 5 Sample.foo Sample2.cache_fs
           "20240105130700-foo.org" ("See [[notes/bar|Bar]].", 3)).
  - vm_compute. reflexivity.
  - vm_compute. reflexivity.
  - vm_compute. reflexivity.
  - cbn. lia.
Defined.

(** ** Parsed references *)

(** C4. A reference of the text that matches no note and no asset
    resolves to a placeholder and the run goes on: [ensure_link]
    returns, without touching a file, the display text between emphasis
    markers when the reference has one, and the raw target between
    emphasis markers when it has none; [find_link] hands that text to
    the rewriting pass. *)
Theorem parsed_reference_placeholder (vault : VaultConverter.t) (s : string)
    (m : OrgLink.Match) (fs : FS) :
  OrgLink.match_at s = Some m →
  (∀ path, ¬ VaultConverter.stem_match vault
               (VaultConverter.split_last (OrgLink.link m)) path) →
  VaultConverter.asset_map vault !! of_string (OrgLink.link m) = None →
  let placeholder :=
    "/" +:+ match OrgLink.title m with
            | Some text => text
            | None => OrgLink.link m
            end +:+ "/" in
  VaultConverter.ensure_link vault (OrgLink.link m) (OrgLink.title m) fs =
    (fs, Return placeholder) ∧
  find_link vault m fs = (fs, Return placeholder).
Proof.
  intros Hm Hnote Hasset placeholder.
  destruct (match_at_title_not_empty s m Hm) as [_ Htitle].
  assert (VaultConverter.ensure_link vault (OrgLink.link m) (OrgLink.title m) fs =
            (fs, Return placeholder)) as Hrun.
  { rewrite ensure_link_unmatched by done. unfold placeholder.
    destruct (OrgLink.title m) as [text|]; [|done].
    rewrite bool_decide_eq_false_2; [done|]. by intros ->. }
  split; [done|]. by rewrite find_link_is_ensure_link.
Qed.

Lemma parsed_reference_placeholder_witness :
  (VaultConverter.ensure_link Sample.vault "nowhere" (Some "Text") Sample.fs =
     (Sample.fs, Return "/Text/") ∧
   find_link Sample.vault
     (OrgLink.mk_Match "[[file:nowhere][Text]]" "nowhere" (Some "Text")) Sample.fs =
     (Sample.fs, Return "/Text/")) ∧
  (VaultConverter.ensure_link Sample.vault "nowhere" None Sample.fs =
     (Sample.fs, Return "/nowhere/") ∧
   find_link Sample.vault (OrgLink.mk_Match "[[file:nowhere]]" "nowhere" None)
     Sample.fs = (Sample.fs, Return "/nowhere/")).
Proof.
  split.
  - apply (parsed_reference_placeholder Sample.vault "[[file:nowhere][Text]] and more"
             (OrgLink.mk_Match "[[file:nowhere][Text]]" "nowhere" (Some "Text"))
             Sample.fs).
    + vm_compute. reflexivity.
    + exact sample_nowhere_unmatched.
    + vm_compute. reflexivity.
  - apply (parsed_reference_placeholder Sample.vault "[[file:nowhere]]."
             (OrgLink.mk_Match "[[file:nowhere]]" "nowhere" None) Sample.fs).
    + vm_compute. reflexivity.
    + exact sample_nowhere_unmatched.
    + vm_compute. reflexivity.
Defined.

(** Called with a display text that is empty, which no reference of a
    text has, [ensure_link] wraps the target. *)
Example ensure_link_empty_text :
  VaultConverter.ensure_link Sample.vault "nowhere" (Some "") Sample.fs =
    (Sample.fs, Return "/nowhere/").
Proof.
  rewrite ensure_link_unmatched; [done|exact sample_nowhere_unmatched|].
  vm_compute. reflexivity.
Qed.

Section resolution_returns.
Import VaultConverter.
Implicit Types (self : VaultConverter.t) (fs : FS).




End resolution_returns.

(** * Rendering *)

(** ** Timed files *)

Section timed_files.
Implicit Types (fs : OrgCache.TFS) (new : FS) (now : nat) (path : Path).

Lemma lookup_contents fs path : contents fs !! path = fst <$> fs !! path.
Proof. apply lookup_fmap. Qed.

Lemma lookup_stamp now fs new path :
  stamp now fs new !! path =
  (λ c, (c, match fs !! path with
            | Some file => if decide (file.1 = c) then file.2 else now
            | None => now
            end)) <$> new !! path.
Proof. unfold stamp. rewrite map_lookup_imap. by destruct (new !! path). Qed.

(** A file that the step left alone keeps its time. *)
Lemma stamp_same now fs new path :
  new !! path = contents fs !! path → stamp now fs new !! path = fs !! path.
Proof.
  rewrite lookup_stamp, lookup_contents. intros ->.
  destruct (fs !! path) as [[c t]|]; [|done]. cbn. by rewrite decide_True.
Qed.

Lemma stamp_contents now fs : stamp now fs (contents fs) = fs.
Proof. apply map_eq. intros path. by apply stamp_same. Qed.

Lemma contents_timed (t : nat) (plain : FS) :
  contents ((λ text, (text, t)) <$> plain) = plain.
Proof.
  apply map_eq. intros path. rewrite lookup_contents, lookup_fmap.
  by destruct (plain !! path).
Qed.

Lemma on_contents_changed {A} now (m : M A) fs path :
  (on_contents now m fs).1 !! path ≠ fs !! path →
  (m (contents fs)).1 !! path ≠ contents fs !! path.
Proof.
  unfold on_contents. destruct (m (contents fs)) as [fs' r]. cbn.
  intros Hdiff Hsame. by apply Hdiff, stamp_same.
Qed.

Lemma on_contents_keeps {A} now (m : M A) fs path :
  dom (contents fs) ⊆ dom (m (contents fs)).1 →
  is_Some (fs !! path) → is_Some ((on_contents now m fs).1 !! path).
Proof.
  unfold on_contents. destruct (m (contents fs)) as [fs' r]. cbn.
  intros Hdom Hpath. rewrite lookup_stamp, fmap_is_Some.
  apply elem_of_dom, Hdom, elem_of_dom. by rewrite lookup_contents, fmap_is_Some.
Qed.

(** A step that only reads leaves the timed files as they were. *)
Lemma on_contents_read_only {A} now (m : M A) fs :
  (m (contents fs)).1 = contents fs →
  on_contents now m fs = (fs, (m (contents fs)).2).
Proof.
  unfold on_contents. destruct (m (contents fs)) as [fs' r]. cbn.
  intros ->. by rewrite stamp_contents.
Qed.
End timed_files.

(** ** What link resolution writes

    The copy of an indexed asset is the one file that link resolution
    can write. *)

Section link_writes.
Implicit Types (vault : VaultConverter.t) (fs : FS) (path : Path).

Lemma ensure_link_changes vault (requested : string) (link_text : option string)
    fs path :
  (VaultConverter.ensure_link vault requested link_text fs).1 !! path ≠ fs !! path →
  asset_copy vault path.
Proof.
  destruct (VaultConverter.from_stem vault (VaultConverter.split_last requested))
    as [[note|]|e] eqn:Hstem.
  - by rewrite (ensure_link_found _ _ _ note).
  - rewrite ensure_link_not_found by done.
    destruct (VaultConverter.asset_map vault !! of_string requested)
      as [asset_path|] eqn:Hasset; [|done].
    cbn zeta. destruct (fs !! joinpath _ _) eqn:Hout; [done|].
    destruct (fs !! asset_path); [|done]. cbn [fst]. intros Hdiff.
    destruct (decide (joinpath (VaultConverter.output_dir vault)
                        (of_string requested) = path)) as [<-|Hne].
    + by exists (of_string requested), asset_path.
    + by rewrite lookup_insert_ne in Hdiff.
  - by rewrite (ensure_link_raise _ _ _ e).
Qed.

Lemma sub_from_changes (repl : OrgLink.Match → M string) (Q : Path → Prop)
    skip (s : string) fs path :
  (∀ m fs0, (repl m fs0).1 !! path ≠ fs0 !! path → Q path) →
  (OrgLink.sub_from repl skip s fs).1 !! path ≠ fs !! path → Q path.
Proof.
  intros Hrepl. revert skip fs.
  induction s as [|c s IH]; intros skip fs; [done|].
  cbn [OrgLink.sub_from]. destruct skip as [|skip]; [|apply IH].
  destruct (OrgLink.match_at (String c s)) as [m|].
  - unfold mbind, M_bind. pose proof (Hrepl m fs) as Hm.
    destruct (repl m fs) as [fs1 [new|e]]; [|done].
    pose proof (IH (String.length (OrgLink.group0 m) - 1) fs1) as Hs.
    destruct (OrgLink.sub_from _ _ _ _) as [fs2 [tail|e]]; cbn in *;
      intros Hdiff;
      (destruct (decide (fs1 !! path = fs !! path)) as [Heq|Hne];
        [apply Hs; congruence|by apply Hm]).
  - unfold mbind, M_bind. pose proof (IH 0 fs) as Hs.
    by destruct (OrgLink.sub_from _ _ _ _) as [fs2 [tail|e]].
Qed.

Lemma sub_changes vault (s : string) fs path :
  (OrgLink.sub (find_link vault) s fs).1 !! path ≠ fs !! path →
  asset_copy vault path.
Proof.
  apply sub_from_changes. intros m fs0. rewrite find_link_is_ensure_link.
  apply ensure_link_changes.
Qed.
End link_writes.

(** ** [as_org] and [process_note] on timed files *)

Section render_steps.
Context `{Collaborators}.
Implicit Types (fs : OrgCache.TFS) (now : nat) (path : Path)
  (self converter : NoteConverter.t) (vault : VaultConverter.t)
  (task : NoteConverter.t * VaultConverter.t).

Lemma generate_changes now self (memo : string) fs path :
  (OrgCache._generate_org_content pypandoc_convert_text now self memo fs).1 !! path
    ≠ fs !! path →
  ∃ name, NoteConverter.org_path self = Return name ∧
          path = OrgCache.cache_file name.
Proof.
  rewrite generate_unfold.
  destruct (NoteConverter.org_path self) as [name|]; [|done].
  assert (<[OrgCache.cache_file name := (memo, now)]> fs !! path ≠ fs !! path →
          ∃ name0, Return name = Return name0 ∧ path = OrgCache.cache_file name0)
    as Hwrite.
  { intros Hdiff. destruct (decide (OrgCache.cache_file name = path)) as [<-|Hne].
    - by exists name.
    - by rewrite lookup_insert_ne in Hdiff. }
  destruct (fs !! OrgCache.cache_file name) as [cached|]; [|exact Hwrite].
  destruct (fs !! NoteConverter.source self) as [source|]; [|done].
  by case_bool_decide.
Qed.

Lemma generate_keeps now self (memo : string) fs path :
  is_Some (fs !! path) →
  is_Some ((OrgCache._generate_org_content pypandoc_convert_text now self memo fs).1
             !! path).
Proof.
  intros Hpath. rewrite generate_unfold.
  destruct (NoteConverter.org_path self) as [name|]; [|done].
  assert (is_Some (<[OrgCache.cache_file name := (memo, now)]> fs !! path))
    as Hwrite by (by apply lookup_insert_is_Some'; right).
  destruct (fs !! OrgCache.cache_file name) as [cached|]; [|exact Hwrite].
  destruct (fs !! NoteConverter.source self) as [source|]; [|done].
  by case_bool_decide.
Qed.

Lemma as_org_unfold now self fs :
  as_org now self "" fs =
  match OrgCache._generate_org_content pypandoc_convert_text now self "" fs with
  | (fs1, Raise e) => (fs1, Raise e)
  | (fs1, Return text) =>
      match NoteConverter.get_org_meta self with
      | Raise e => (fs1, Raise e)
      | Return org_meta => (fs1, Return (org_header self org_meta +:+ text, text))
      end
  end.
Proof.
  unfold as_org, OrgCache.org_content, mbind, OrgCache.TM_bind,
    OrgCache.lift_outcome, mret, OrgCache.TM_ret.
  rewrite bool_decide_eq_true_2 by done.
  unfold mbind, OrgCache.TM_bind, mret, OrgCache.TM_ret.
  destruct (OrgCache._generate_org_content _ _ _ _ _) as [fs1 [text|e]]; [|done].
  destruct (NoteConverter.get_org_meta self) as [org_meta|e]; [|done].
  cbn [fst snd]. unfold org_header. by rewrite !append_assoc.
Qed.

Lemma as_org_changes now self fs path :
  (as_org now self "" fs).1 !! path ≠ fs !! path →
  ∃ name, NoteConverter.org_path self = Return name ∧
          path = OrgCache.cache_file name.
Proof.
  rewrite as_org_unfold.
  pose proof (generate_changes now self "" fs path) as Hgen.
  destruct (OrgCache._generate_org_content _ _ _ _ _) as [fs1 [text|e]]; [|done].
  by destruct (NoteConverter.get_org_meta self).
Qed.

Lemma as_org_keeps now self fs path :
  is_Some (fs !! path) → is_Some ((as_org now self "" fs).1 !! path).
Proof.
  intros Hpath. rewrite as_org_unfold.
  pose proof (generate_keeps now self "" fs path Hpath) as Hgen.
  destruct (OrgCache._generate_org_content _ _ _ _ _) as [fs1 [text|e]]; [|done].
  by destruct (NoteConverter.get_org_meta self).
Qed.

Lemma process_note_unfold now converter vault fs :
  process_note now (converter, vault) fs =
  match NoteConverter.org_path converter with
  | Raise e => (fs, Raise e)
  | Return name =>
      match as_org now converter "" fs with
      | (fs1, Raise e) => (fs1, Raise e)
      | (fs1, Return generated) =>
          match on_contents now (OrgLink.sub (find_link vault) generated.1) fs1 with
          | (fs2, Raise e) => (fs2, Raise e)
          | (fs2, Return org_content) =>
              (<[joinpath (VaultConverter.output_dir vault) (of_string name)
                 := (org_content, now)]> fs2, Return ())
          end
      end
  end.
Proof.
  unfold process_note, mbind, OrgCache.TM_bind, OrgCache.lift_outcome,
    OrgCache.write_text.
  destruct (NoteConverter.org_path converter); [|done].
  destruct (as_org now converter "" fs) as [fs1 [generated|e]]; [|done].
  by destruct (on_contents _ _ _) as [fs2 [?|?]].
Qed.

(** A note without a usable creation date is abandoned before
    anything is touched. *)
Lemma process_note_missing_timestamp now converter vault e fs :
  NoteConverter.org_path converter = Raise e →
  process_note now (converter, vault) fs = (fs, Raise e).
Proof. intros He. by rewrite process_note_unfold, He. Qed.

(** What a render can change: the cache file of the note, copies of
    assets and, when it returns, the note file. *)
Lemma process_note_frame now task fs path :
  (process_note now task fs).1 !! path ≠ fs !! path →
  render_scratch task path ∨
  (process_note now task fs).2 = Return () ∧
  ∃ name, NoteConverter.org_path task.1 = Return name ∧
          path = joinpath (VaultConverter.output_dir task.2) (of_string name).
Proof.
  destruct task as [converter vault]. rewrite process_note_unfold. cbn [fst snd].
  destruct (NoteConverter.org_path converter) as [name|] eqn:Hname; [|done].
  pose proof (as_org_changes now converter fs path) as Horg.
  destruct (as_org now converter "" fs) as [fs1 [generated|e]]; cbn [fst] in Horg;
    [|intros Hdiff; left; left; by apply Horg].
  pose proof (on_contents_changed now (OrgLink.sub (find_link vault) generated.1)
                fs1 path) as Hsub.
  assert (∀ fs2 : OrgCache.TFS,
            (fs2 !! path ≠ fs1 !! path →
             (OrgLink.sub (find_link vault) generated.1 (contents fs1)).1 !! path
               ≠ contents fs1 !! path) →
            fs2 !! path ≠ fs !! path →
            render_scratch (converter, vault) path) as Hscratch.
  { intros fs2 Hfs2 Hdiff.
    destruct (decide (fs1 !! path = fs !! path)) as [Heq|Hne].
    - right. apply (sub_changes vault generated.1 (contents fs1)).
      apply Hfs2. congruence.
    - left. by apply Horg. }
  destruct (on_contents _ _ _) as [fs2 [org_content|e]]; cbn [fst snd] in *.
  - intros Hdiff.
    destruct (decide (joinpath (VaultConverter.output_dir vault) (of_string name)
                        = path)) as [<-|Hne].
    + right. split; [done|]. by exists name.
    + rewrite lookup_insert_ne in Hdiff by done. left. by eapply Hscratch.
  - intros Hdiff. left. by eapply Hscratch.
Qed.

(** Rendering deletes nothing. *)
Lemma process_note_keeps now task fs path :
  is_Some (fs !! path) → is_Some ((process_note now task fs).1 !! path).
Proof.
  intros Hpath. destruct task as [converter vault]. rewrite process_note_unfold.
  destruct (NoteConverter.org_path converter) as [name|]; [|done].
  pose proof (as_org_keeps now converter fs path Hpath) as Horg.
  destruct (as_org now converter "" fs) as [fs1 [generated|e]]; [|done].
  cbn [fst] in Horg.
  pose proof (on_contents_keeps now (OrgLink.sub (find_link vault) generated.1)
                fs1 path
                (sub_from_dom (find_link vault) 0 generated.1 (contents fs1)
                   (find_link_dom vault)) Horg) as Hsub.
  destruct (on_contents _ _ _) as [fs2 [org_content|e]]; [|done].
  cbn [fst] in *. apply lookup_insert_is_Some'. by right.
Qed.

Lemma process_note_written now task fs fs1 :
  process_note now task fs = (fs1, Return ()) → written fs1 task.
Proof.
  destruct task as [converter vault]. rewrite process_note_unfold.
  destruct (NoteConverter.org_path converter) as [name|] eqn:Hname; [|done].
  destruct (as_org now converter "" fs) as [fs2 [generated|e]]; [|done].
  destruct (on_contents _ _ _) as [fs3 [org_content|e]]; [|done].
  intros [= <-]. exists name. split; [done|]. cbn. by rewrite lookup_insert_eq.
Qed.
End render_steps.

(** ** The pool *)

Section pool_facts.
Context {St A B : Type} (func : A → St → St * outcome B).

(** The first exception ends the chunk: what follows the failing item
    is not run. *)
Lemma mapstar_app_raise (pre post : list A) (x : A) (st st1 st2 : St)
    (ys : list B) (e : exn) :
  Pool.mapstar func pre st = (st1, Return ys) →
  func x st1 = (st2, Raise e) →
  Pool.mapstar func (pre ++ x :: post) st = (st2, Raise e).
Proof.
  revert st st1 ys. induction pre as [|x0 pre IH]; intros st st1 ys.
  - intros [= <- <-] Hx. cbn [app Pool.mapstar]. by rewrite Hx.
  - cbn [app Pool.mapstar]. destruct (func x0 st) as [st0 [y|e0]]; [|done].
    destruct (Pool.mapstar func pre st0) as [st0' [ys'|e0]] eqn:Hpre; [|done].
    intros [= <- <-] Hx. by rewrite (IH _ _ _ Hpre Hx).
Qed.

Lemma handle_chunks_app (sched1 sched2 : list (list A)) (failure : option exn)
    (st : St) :
  Pool.handle_chunks func (sched1 ++ sched2) failure st =
  Pool.handle_chunks func sched2
    (Pool.handle_chunks func sched1 failure st).2
    (Pool.handle_chunks func sched1 failure st).1.
Proof.
  revert failure st. induction sched1 as [|chunk sched1 IH]; intros failure st;
    [done|].
  cbn [app Pool.handle_chunks].
  destruct (Pool.mapstar func chunk st) as [st1 [ys|e]]; apply IH.
Qed.

(** Only the first exception is kept. *)
Lemma handle_chunks_first (sched : list (list A)) (e : exn) (st : St) :
  (Pool.handle_chunks func sched (Some e) st).2 = Some e.
Proof.
  revert st. induction sched as [|chunk sched IH]; intros st; [done|].
  cbn [Pool.handle_chunks].
  destruct (Pool.mapstar func chunk st) as [st1 [ys|e']]; apply IH.
Qed.
End pool_facts.

Section batch.
Context `{Collaborators}.
Implicit Types (fs : OrgCache.TFS) (now : nat)
  (task : NoteConverter.t * VaultConverter.t)
  (chunk : list (NoteConverter.t * VaultConverter.t))
  (sched : list (list (NoteConverter.t * VaultConverter.t))).

Lemma mapstar_keeps now chunk fs path :
  is_Some (fs !! path) →
  is_Some ((Pool.mapstar (process_note now) chunk fs).1 !! path).
Proof.
  revert fs. induction chunk as [|task chunk IH]; intros fs Hpath; [done|].
  cbn [Pool.mapstar].
  pose proof (process_note_keeps now task fs path Hpath) as Ht.
  destruct (process_note now task fs) as [fs1 [[]|e]]; [|done].
  pose proof (IH fs1 Ht) as Hc.
  by destruct (Pool.mapstar _ _ _) as [fs2 [ys|e]].
Qed.

Lemma handle_chunks_keeps now sched failure fs path :
  is_Some (fs !! path) →
  is_Some ((Pool.handle_chunks (process_note now) sched failure fs).1 !! path).
Proof.
  revert failure fs. induction sched as [|chunk sched IH]; intros failure fs Hpath;
    [done|].
  cbn [Pool.handle_chunks]. pose proof (mapstar_keeps now chunk fs path Hpath) as Hc.
  destruct (Pool.mapstar _ _ _) as [fs1 [ys|e]]; by apply IH.
Qed.

Lemma mapstar_written now chunk fs fs1 ys :
  Pool.mapstar (process_note now) chunk fs = (fs1, Return ys) →
  ∀ task, task ∈ chunk → written fs1 task.
Proof.
  revert fs ys. induction chunk as [|task0 chunk IH]; intros fs ys.
  - by intros _ task ?%elem_of_nil.
  - cbn [Pool.mapstar].
    destruct (process_note now task0 fs) as [fs2 [[]|e]] eqn:Htask; [|done].
    destruct (Pool.mapstar (process_note now) chunk fs2) as [fs3 [ys'|e]] eqn:Hrest;
      [|done].
    intros [= <- <-] task [->|Hin]%elem_of_cons; [|by eapply IH].
    destruct (process_note_written _ _ _ _ Htask) as (name & Hname & Hfile).
    exists name. split; [done|].
    pose proof (mapstar_keeps now chunk fs2 _ Hfile) as Hkept.
    by rewrite Hrest in Hkept.
Qed.

Lemma handle_chunks_written now sched failure chunk fs task :
  written fs task →
  written (Pool.handle_chunks (process_note now) sched failure fs).1 task.
Proof.
  intros (name & Hname & Hfile). exists name. split; [done|].
  by apply handle_chunks_keeps.
Qed.

Lemma handle_chunks_none now sched failure fs :
  (Pool.handle_chunks (process_note now) sched failure fs).2 = None →
  ∀ chunk task, chunk ∈ sched → task ∈ chunk →
    written (Pool.handle_chunks (process_note now) sched failure fs).1 task.
Proof.
  revert failure fs. induction sched as [|chunk0 sched IH]; intros failure fs Hnone.
  - by intros chunk task ?%elem_of_nil.
  - cbn [Pool.handle_chunks] in *.
    destruct (Pool.mapstar (process_note now) chunk0 fs) as [fs1 [ys|e']] eqn:Hrun.
    + intros chunk task [->|Hchunk]%elem_of_cons Htask; [|by eapply IH].
      apply (handle_chunks_written now sched failure chunk0).
      by eapply mapstar_written.
    + by rewrite handle_chunks_first in Hnone.
Qed.

(** The build phase leaves the timed files as they are. *)
Lemma on_contents_load_vault now (input_dir output_dir : Path) (glob : list Path) fs :
  on_contents now (load_vault input_dir output_dir glob) fs =
    (fs, (load_vault input_dir output_dir glob (contents fs)).2).
Proof.
  apply on_contents_read_only. unfold load_vault, mbind, M_bind.
  pose proof (discover_fs input_dir output_dir glob (∅, []) (contents fs)) as Hfs.
  by destruct (discover _ _ _ _ _) as [fs1 [maps|e]].
Qed.
End batch.

(** C1 (amended). [process_note] catches nothing, and the pool runs
    every chunk before it reports. Take a run of [main] in which the
    pool takes the chunks in the order [sched]. Whenever the render of
    a note raises, the note is abandoned before its file is written:
    the render has touched no file but the cache file of the note and
    copies of assets, and no file at all when the creation date is
    missing; the rest of the chunk is not run; the chunks that follow
    are run all the same; and [main] ends by raising the first
    exception that reached the pool. The notes of a chunk that is run to
    its end are written, and [main] returns only when every note has
    been written. *)
Theorem main_failure_propagates `{Collaborators} (now cpu_count : nat)
    (input_dir output_dir : Path) (glob : list Path)
    (fs fs1 fs' : OrgCache.TFS) (vault : VaultConverter.t)
    (sched : list (list (NoteConverter.t * VaultConverter.t)))
    (r : outcome unit) :
  on_contents now (load_vault input_dir output_dir glob) fs = (fs1, Return vault) →
  1 ≤ cpu_count →
  sched ≡ₚ Pool.get_tasks (Pool.chunksize cpu_count (length (pool_tasks vault)))
             (pool_tasks vault) →
  Pool.run (process_note now) sched fs1 = (fs', r) →
  main now cpu_count input_dir output_dir (Some glob) fs fs' r ∧
  (∀ before chunk after pre task post fs_chunk first fs_task ys fs_failed e,
      sched = before ++ chunk :: after →
      chunk = pre ++ task :: post →
      Pool.handle_chunks (process_note now) before None fs1 = (fs_chunk, first) →
      Pool.mapstar (process_note now) pre fs_chunk = (fs_task, Return ys) →
      process_note now task fs_task = (fs_failed, Raise e) →
      (∀ path, fs_failed !! path ≠ fs_task !! path → render_scratch task path) ∧
      (∀ e', NoteConverter.org_path task.1 = Raise e' →
             e = e' ∧ fs_failed = fs_task) ∧
      Pool.mapstar (process_note now) chunk fs_chunk = (fs_failed, Raise e) ∧
      fs' = (Pool.handle_chunks (process_note now) after
               (Some (default e first)) fs_failed).1 ∧
      r = Raise (default e first)) ∧
  (∀ before chunk after fs_chunk first fs_done ys,
      sched = before ++ chunk :: after →
      Pool.handle_chunks (process_note now) before None fs1 = (fs_chunk, first) →
      Pool.mapstar (process_note now) chunk fs_chunk = (fs_done, Return ys) →
      ∀ task, task ∈ chunk → written fs' task) ∧
  (r = Return () → ∀ task, task ∈ pool_tasks vault → written fs' task).
Proof.
  intros Hload Hcpu Hperm Hrun. split_and!.
  - unfold main. rewrite Hload. rewrite bool_decide_eq_false_2 by lia.
    fold (pool_tasks vault). by exists sched.
  - intros before chunk after pre task post fs_chunk first fs_task ys fs_failed e
      Hsched Hchunk Hbefore Hpre Htask.
    assert (Pool.mapstar (process_note now) chunk fs_chunk = (fs_failed, Raise e))
      as Hchunk_run by (subst chunk; by eapply mapstar_app_raise).
    split_and!; [| |done| |].
    + intros path Hdiff.
      pose proof (process_note_frame now task fs_task path) as Hframe.
      rewrite Htask in Hframe. cbn [fst snd] in Hframe.
      by destruct (Hframe Hdiff) as [Hscratch|[? _]].
    + intros e' He'. destruct task as [converter vault0].
      rewrite (process_note_missing_timestamp now converter vault0 e') in Htask
        by done.
      by injection Htask as <- <-.
    + unfold Pool.run in Hrun. subst sched.
      rewrite handle_chunks_app, Hbefore in Hrun. cbn [fst snd] in Hrun.
      cbn [Pool.handle_chunks] in Hrun. rewrite Hchunk_run in Hrun.
      destruct (Pool.handle_chunks _ after _ _) as [fs2 [e2|]];
        by injection Hrun as <- <-.
    + unfold Pool.run in Hrun. subst sched.
      rewrite handle_chunks_app, Hbefore in Hrun. cbn [fst snd] in Hrun.
      cbn [Pool.handle_chunks] in Hrun. rewrite Hchunk_run in Hrun.
      pose proof (handle_chunks_first (process_note now) after (default e first)
                    fs_failed) as Hfirst.
      destruct (Pool.handle_chunks _ after _ _) as [fs2 failure].
      cbn [snd] in Hfirst. subst failure. by injection Hrun as <- <-.
  - intros before chunk after fs_chunk first fs_done ys Hsched Hbefore Hchunk
      task Htask.
    unfold Pool.run in Hrun. subst sched.
    rewrite handle_chunks_app, Hbefore in Hrun. cbn [fst snd] in Hrun.
    cbn [Pool.handle_chunks] in Hrun. rewrite Hchunk in Hrun.
    pose proof (handle_chunks_written now after first chunk fs_done task
                  (mapstar_written now chunk _ _ _ Hchunk task Htask)) as Hwritten.
    destruct (Pool.handle_chunks _ after _ _) as [fs2 [e2|]];
      by injection Hrun as <- <-.
  - intros -> task Htask.
    destruct (get_tasks_cover cpu_count _ _ Htask) as (chunk & Hchunk & Hin).
    rewrite <- Hperm in Hchunk. unfold Pool.run in Hrun.
    pose proof (handle_chunks_none now sched None fs1) as Hnone.
    destruct (Pool.handle_chunks _ _ _ _) as [fs2 [e|]]; [done|].
    injection Hrun as <-. by eapply Hnone.
Qed.

Lemma sample_load_vault5 :
  on_contents 1
    (load_vault (H:=Sample.collaborators) Sample.vault_dir Sample.out_dir
       Sample.glob5) Sample.world5 = (Sample.world5, Return Sample.vault5).
Proof.
  rewrite on_contents_load_vault. unfold Sample.world5 at 2.
  rewrite contents_timed.
  assert (is_Return (load_vault (H:=Sample.collaborators) Sample.vault_dir
                       Sample.out_dir Sample.glob5 Sample.tree5).2 = true) as Hok
    by (vm_compute; reflexivity).
  unfold Sample.vault5.
  by destruct (load_vault _ _ _ _).2.
Qed.

Lemma sample_sched5 :
  Pool.get_tasks (Pool.chunksize 1 (length (pool_tasks Sample.vault5)))
    (pool_tasks Sample.vault5) =
  [ [(Sample.note5 "a.md", Sample.vault5); (Sample.note5 "b.md", Sample.vault5)];
    [(Sample.note5 "c.md", Sample.vault5); (Sample.note5 "d.md", Sample.vault5)];
    [(Sample.note5 "e.md", Sample.vault5)] ].
Proof. vm_compute. reflexivity. Qed.

Lemma sample_run5 :
  Pool.run (process_note (H:=Sample.collaborators) 1)
    (Pool.get_tasks (Pool.chunksize 1 (length (pool_tasks Sample.vault5)))
       (pool_tasks Sample.vault5)) Sample.world5 = (Sample.run5.1, Sample.run5.2).
Proof.
  assert (length (pool_tasks Sample.vault5) = 5) as -> by (vm_compute; reflexivity).
  unfold Sample.run5. by destruct (Pool.run _ _ _).
Qed.

Lemma sample_main5 :
  main (H:=Sample.collaborators) 1 1 Sample.vault_dir Sample.out_dir
    (Some Sample.glob5) Sample.world5 Sample.run5.1 Sample.run5.2.
Proof.
  unfold main. rewrite sample_load_vault5.
  rewrite bool_decide_eq_false_2 by lia. fold (pool_tasks Sample.vault5).
  eexists. split; [reflexivity|exact sample_run5].
Qed.

Lemma sample_task_b :
  (Sample.note5 "b.md", Sample.vault5) ∈ pool_tasks Sample.vault5.
Proof.
  unfold pool_tasks. apply list_elem_of_fmap. exists (Sample.note5 "b.md").
  split; [done|]. unfold values. apply list_elem_of_fmap.
  exists (["notes"; "b.md"], Sample.note5 "b.md"). split; [done|].
  apply get_Some_elem_of. vm_compute. reflexivity.
Qed.

(** With one worker and five notes the chunks hold two notes. The first
    note has no creation date: its failure leaves the second note of its
    chunk, which would render, unwritten; the two notes of the next chunk
    are written; and [main] raises the [KeyError]. *)
Lemma main_failure_propagates_witness :
  main (H:=Sample.collaborators) 1 1 Sample.vault_dir Sample.out_dir
    (Some Sample.glob5) Sample.world5 Sample.run5.1 Sample.run5.2 ∧
  Pool.mapstar (process_note (H:=Sample.collaborators) 1)
    [(Sample.note5 "a.md", Sample.vault5); (Sample.note5 "b.md", Sample.vault5)]
    Sample.world5 = (Sample.world5, Raise (KeyError "created")) ∧
  Sample.run5.2 = Raise (KeyError "created") ∧
  written Sample.run5.1 (Sample.note5 "c.md", Sample.vault5) ∧
  written Sample.run5.1 (Sample.note5 "d.md", Sample.vault5).
Proof.
  destruct (main_failure_propagates (H:=Sample.collaborators) 1 1 Sample.vault_dir
              Sample.out_dir Sample.glob5 Sample.world5 Sample.world5 Sample.run5.1
              Sample.vault5 _ Sample.run5.2 sample_load_vault5 (le_n 1)
              (reflexivity _) sample_run5) as (Hmain & Hfailure & Hwritten & _).
  split; [exact Hmain|].
  destruct (Hfailure []
              [(Sample.note5 "a.md", Sample.vault5); (Sample.note5 "b.md", Sample.vault5)]
              [ [(Sample.note5 "c.md", Sample.vault5);
                 (Sample.note5 "d.md", Sample.vault5)];
                [(Sample.note5 "e.md", Sample.vault5)] ]
              [] (Sample.note5 "a.md", Sample.vault5)
              [(Sample.note5 "b.md", Sample.vault5)]
              Sample.world5 None Sample.world5 [] Sample.world5 (KeyError "created"))
    as (_ & _ & Hchunk & _ & Hraises).
  - exact sample_sched5.
  - reflexivity.
  - reflexivity.
  - reflexivity.
  - apply process_note_missing_timestamp. vm_compute. reflexivity.
  - split; [exact Hchunk|]. split; [exact Hraises|].
    assert (is_Return
              (Pool.mapstar (process_note (H:=Sample.collaborators) 1)
                 [(Sample.note5 "c.md", Sample.vault5);
                  (Sample.note5 "d.md", Sample.vault5)] Sample.world5).2 = true)
      as Hreturns by (vm_compute; reflexivity).
    destruct (Pool.mapstar (process_note (H:=Sample.collaborators) 1)
                [(Sample.note5 "c.md", Sample.vault5);
                 (Sample.note5 "d.md", Sample.vault5)] Sample.world5)
      as [fs_done [ys|e]] eqn:Hrun; [|discriminate].
    pose proof (Hwritten
                  [[(Sample.note5 "a.md", Sample.vault5);
                    (Sample.note5 "b.md", Sample.vault5)]]
                  [(Sample.note5 "c.md", Sample.vault5);
                   (Sample.note5 "d.md", Sample.vault5)]
                  [[(Sample.note5 "e.md", Sample.vault5)]]
                  Sample.world5 (Some (KeyError "created")) fs_done ys) as Hcd.
    split; apply Hcd; try exact sample_sched5; try exact Hrun.
    + cbn [Pool.handle_chunks]. rewrite Hchunk. reflexivity.
    + left.
    + cbn [Pool.handle_chunks]. rewrite Hchunk. reflexivity.
    + right. left.
Defined.

(** The second note of the first chunk renders when it is run, and the
    run leaves it unwritten. *)
Lemma sample_run5_skips :
  is_Return (process_note (H:=Sample.collaborators) 1
               (Sample.note5 "b.md", Sample.vault5) Sample.world5).2 = true ∧
  ¬ written Sample.run5.1 (Sample.note5 "b.md", Sample.vault5).
Proof.
  split; [vm_compute; reflexivity|].
  intros (name & Hname & Hfile).
  assert (NoteConverter.org_path (Sample.note5 "b.md") =
            Return "20240105000000-b.org") as Hb by (vm_compute; reflexivity).
  cbn [fst snd] in Hname, Hfile. rewrite Hb in Hname. injection Hname as <-.
  assert (Sample.run5.1 !! ["/"; "org"; "20240105000000-b.org"] = None) as Hnone
    by (vm_compute; reflexivity).
  destruct Hfile as [c Hc].
  pose proof (eq_trans (eq_sym Hnone) Hc). discriminate.
Qed.

Lemma main_isolation_counterexample :
  ¬ (∀ (H : Collaborators) (now cpu_count : nat) (input_dir output_dir : Path)
       (glob : list Path) (fs fs1 fs' : OrgCache.TFS) (vault : VaultConverter.t)
       (r : outcome unit),
       on_contents now (load_vault input_dir output_dir glob) fs =
         (fs1, Return vault) →
       1 ≤ cpu_count →
       main now cpu_count input_dir output_dir (Some glob) fs fs' r →
       r = Return () ∧
       ∀ task, task ∈ pool_tasks vault →
               is_Return (process_note now task fs1).2 = true →
               written fs' task).
Proof.
  intros Hstated.
  destruct (Hstated Sample.collaborators 1 1 Sample.vault_dir Sample.out_dir
              Sample.glob5 Sample.world5 Sample.world5 Sample.run5.1 Sample.vault5
              Sample.run5.2 sample_load_vault5 (le_n 1) sample_main5)
    as [_ Hwritten].
  destruct sample_run5_skips as [Hrenders Hskipped].
  apply Hskipped, Hwritten; [exact sample_task_b|exact Hrenders].
Qed.

(** The third note of the five is rendered in full when it is run: the
    picture is copied and the note is written at the time of the
    render. *)
Example process_note_example :
  let fs := (process_note (H:=Sample.collaborators) 1
               (Sample.note5 "c.md", Sample.vault5) Sample.world5).1 in
  fs !! ["/"; "org"; "20240105000000-c.org"] =
    Some (":PROPERTIES:" +:+ nl +:+ ":ID: c" +:+ nl +:+ ":END:" +:+ nl +:+
          "#+title: c" +:+ nl +:+ "#+filetags: :notes:" +:+ nl +:+ nl +:+
          "created: see [[id:b][b]], [[images/pic.png]] and /Text/.", 1) ∧
  fs !! ["/"; "org"; "images"; "pic.png"] = Some ("PNG", 1) ∧
  fs !! ["cache"; "pandoc"; "20240105000000-c.org"] = Some ("", 1).
Proof. repeat split; vm_compute; reflexivity. Qed.

(** Rendered again later, the note has lost its body: the cache file
    that the first render left is empty and newer than the note. *)
Example process_note_twice :
  let fs1 := (process_note (H:=Sample.collaborators) 1
                (Sample.note5 "c.md", Sample.vault5) Sample.world5).1 in
  let fs2 := (process_note (H:=Sample.collaborators) 2
                (Sample.note5 "c.md", Sample.vault5) fs1).1 in
  fs2 !! ["/"; "org"; "20240105000000-c.org"] =
    Some (":PROPERTIES:" +:+ nl +:+ ":ID: c" +:+ nl +:+ ":END:" +:+ nl +:+
          "#+title: c" +:+ nl +:+ "#+filetags: :notes:" +:+ nl +:+ nl, 2).
Proof. vm_compute. reflexivity. Qed.

(** A note that links to a stem held by two notes: the render raises
    after the cache file was written and before the note is. *)
Example process_note_ambiguous :
  let run := process_note (H:=Sample.collaborators) 1
               (Sample.bar, Sample2.vault_twins) ∅ in
  run.2 = Raise (ValueError "Too many stem matches found") ∧
  run.1 !! OrgCache.cache_file "20240105130700-bar.org" = Some ("", 1) ∧
  run.1 !! ["/"; "org"; "20240105130700-bar.org"] = None.
Proof. repeat split; vm_compute; reflexivity. Qed.

(** ** Where rendering writes *)

Lemma split_no_sep (sep : ascii) (s w : string) :
  w ∈ PyStr.split sep s →
  PyStr.forallb (λ c, negb (bool_decide (c = sep))) w = true.
Proof.
  revert w. induction s as [|c s IH]; intros w.
  - cbn. by intros ->%list_elem_of_singleton.
  - cbn [PyStr.split]. destruct (decide (c = sep)) as [->|Hc].
    + intros [->|Hin]%elem_of_cons; [done|by apply IH].
    + destruct (PyStr.split sep s) as [|w0 ws] eqn:Hsplit.
      * intros ->%list_elem_of_singleton. cbn. by rewrite bool_decide_eq_false_2.
      * intros [->|Hin]%elem_of_cons.
        -- cbn. rewrite bool_decide_eq_false_2 by done. apply IH. by left.
        -- apply IH. by right.
Qed.

Lemma parse_root_nil (c : ascii) (rest : string) :
  c ≠ "/"%char → parse_root (String c rest) = [].
Proof.
  intros Hc. unfold parse_root.
  destruct c as [[] [] [] [] [] [] [] []]; try done.
Qed.

(** A text that does not start with a slash parses to a relative path. *)
Lemma of_string_relative (s : string) :
  parse_root s = [] → is_absolute (of_string s) = false.
Proof.
  intros Hroot. unfold of_string. rewrite Hroot. cbn [app].
  destruct (filter _ (PyStr.split "/"%char s)) as [|w ws] eqn:Hfilter; [done|].
  assert (w ∈ filter (λ w, w ≠ "" ∧ w ≠ ".") (PyStr.split "/"%char s)) as Hin
    by (rewrite Hfilter; by left).
  apply list_elem_of_filter in Hin as [_ Hin]. apply split_no_sep in Hin.
  cbn [is_absolute]. unfold is_root.
  apply orb_false_iff. split; apply bool_decide_eq_false; by intros ->.
Qed.

Lemma decimal_fuel_head (fuel n : nat) :
  ∃ c rest, decimal_fuel (S fuel) n = String c rest ∧ PyStr.is_digit c = true.
Proof.
  revert n. induction fuel as [|fuel IH]; intros n; cbn [decimal_fuel].
  - destruct (n <? 10); exists (digit_char n), ""; split;
      [done|apply digit_char_is_digit|done|apply digit_char_is_digit].
  - destruct (n <? 10) eqn:Hn.
    + exists (digit_char n), "". split; [done|apply digit_char_is_digit].
    + destruct (IH (n / 10)) as (c & rest & Heq & Hc).
      exists c, (rest +:+ String (digit_char n) ""). split; [|done].
      cbn [decimal_fuel] in Heq. by rewrite Heq, append_cons.
Qed.

(** The name of the output file starts with a digit of the year. *)
Lemma org_path_relative (note : NoteConverter.t) (name : string) :
  NoteConverter.org_path note = Return name →
  is_absolute (of_string name) = false.
Proof.
  unfold NoteConverter.org_path.
  destruct (NoteConverter.meta note !! "created") as [created|]; [|done].
  assert (∀ t, is_absolute
                 (of_string (strftime_compact t +:+ "-" +:+
                             NoteConverter.slug note +:+ ".org")) = false) as Hrel.
  { intros t. unfold strftime_compact, decimal.
    destruct (decimal_fuel_head (year t) (year t)) as (c & rest & -> & Hc).
    rewrite !append_cons.
    apply of_string_relative, parse_root_nil. by intros ->. }
  destruct created; try done; cbn; intros [= <-]; apply Hrel.
Qed.

Section frames.
Context `{Collaborators}.
Implicit Types (fs : OrgCache.TFS) (vault : VaultConverter.t).

(** The files that rendering a note can change, whether the render
    returns or raises: the cache file of the note, whose place does not
    depend on the output directory; the copy of an indexed asset; and,
    when the render returns, the note file. With an asset map keyed by
    relative paths, whatever changes outside the output directory is the
    cache file. *)
Theorem process_note_writes (now : nat) (converter : NoteConverter.t) vault fs
    (path : Path) :
  let run := process_note now (converter, vault) fs in
  run.1 !! path ≠ fs !! path →
  ((∃ name, NoteConverter.org_path converter = Return name ∧
            path = OrgCache.cache_file name) ∨
   asset_copy vault path ∨
   (run.2 = Return () ∧
    ∃ name, NoteConverter.org_path converter = Return name ∧
            path = joinpath (VaultConverter.output_dir vault) (of_string name))) ∧
  (relative_assets vault →
   (∃ name, NoteConverter.org_path converter = Return name ∧
            path = OrgCache.cache_file name) ∨
   VaultConverter.output_dir vault `prefix_of` path).
Proof.
  cbn zeta. intros Hdiff.
  pose proof (process_note_frame now (converter, vault) fs path Hdiff) as Hframe.
  cbn [fst snd] in Hframe. split.
  - destruct Hframe as [[Hcache|Hcopy]|Hnote]; auto.
  - intros Hrel.
    destruct Hframe as [[Hcache|(link_path & asset_path & Hasset & ->)]
                       |(_ & name & Hname & ->)].
    + by left.
    + right. unfold joinpath. rewrite (Hrel _ _ Hasset). by apply prefix_app_r.
    + right. unfold joinpath. rewrite (org_path_relative _ _ Hname).
      by apply prefix_app_r.
Qed.
End frames.

Lemma sample_vault5_relative : relative_assets Sample.vault5.
Proof.
  assert (map_Forall (λ link_path _, is_absolute link_path = false)
            (VaultConverter.asset_map Sample.vault5)) as Hall
    by (apply (bool_decide_unpack _); vm_compute; exact I).
  intros link_path asset_path Hasset. exact (Hall link_path asset_path Hasset).
Qed.

Lemma process_note_writes_witness :
  (∃ name, NoteConverter.org_path (Sample.note5 "c.md") = Return name ∧
           ["/"; "org"; "images"; "pic.png"] = OrgCache.cache_file name) ∨
  VaultConverter.output_dir Sample.vault5 `prefix_of`
    ["/"; "org"; "images"; "pic.png"].
Proof.
  assert ((process_note (H:=Sample.collaborators) 1
             (Sample.note5 "c.md", Sample.vault5) Sample.world5).1
            !! ["/"; "org"; "images"; "pic.png"]
          ≠ Sample.world5 !! ["/"; "org"; "images"; "pic.png"]) as Hcopied.
  { assert ((process_note (H:=Sample.collaborators) 1
               (Sample.note5 "c.md", Sample.vault5) Sample.world5).1
              !! ["/"; "org"; "images"; "pic.png"] = Some ("PNG", 1)) as ->
      by (vm_compute; reflexivity).
    assert (Sample.world5 !! ["/"; "org"; "images"; "pic.png"] = None) as ->
      by (vm_compute; reflexivity).
    discriminate. }
  exact (proj2 (process_note_writes (H:=Sample.collaborators) 1
                  (Sample.note5 "c.md") Sample.vault5 Sample.world5
                  ["/"; "org"; "images"; "pic.png"] Hcopied)
           sample_vault5_relative).
Defined.

(** ** The text of a note *)


Section text.
Context `{Collaborators}.
Implicit Types (fs : OrgCache.TFS) (now : nat).

End text.

